(** * preview-ocr: the OCR token model of [ocr.py] and the range selector of [main.py]

    A shallow embedding of
    - [ocr.Text], [Text.from_row], [get_text] (token construction and the
      empty-text filter),
    - [fix_size_and_position] (the line normalizer, which mutates the token
      objects in place),
    - [get_plain_text] (the plain-text reducer),
    - [ImageViewer._setSelectedText] (the range selector),
    and the properties the specification states about them.

    Modelling choices, all taken from the Python source:
    - [int] is unbounded: [Z].
    - [float] is IEEE binary64: [spec_float] of the Standard Library, with
      its comparison [SFcompare]; [x > y], [x < y], [x >= y], [x <= y] and
      [x == y] are the IEEE comparisons, all false on NaN.
    - [str] is a sequence of Unicode code points: [list N].
    - Token objects and rectangle items are mutable and shared: they live in
      a store indexed by object identity ([loc]); a Python list of objects is
      a [list loc].
    - An exception is a value of [exception]; a call that may raise returns
      a [result]. *)

From Stdlib Require Import ZArith NArith Lia.
From Stdlib Require Import Floats.SpecFloat.
From Stdlib Require Import Strings.String Strings.Ascii.
From stdpp Require Import base decidable option list functions gmap.

Local Open Scope Z_scope.
#[local] Set Warnings "-clear-no-such-hyp".

(** ** Python values *)

(** [str]: a sequence of code points. *)
Abbreviation str := (list N).

(** A literal of the source, written as a Rocq string of ASCII characters. *)
Definition u (s : String.string) : str :=
  List.map N_of_ascii (list_ascii_of_string s).

(** The literal ["\n"]. *)
Definition newline : str := [10%N].

(** [float]: binary64, without NaN payloads. *)
Abbreviation float := spec_float.

Definition is_nan (x : float) : bool :=
  match x with S754_nan => true | _ => false end.

(** The rich comparisons of [float]. *)
Definition float_gt (x y : float) : bool := SFltb y x.
Definition float_lt (x y : float) : bool := SFltb x y.
Definition float_ge (x y : float) : bool := SFleb y x.
Definition float_le (x y : float) : bool := SFleb x y.
Definition float_eq (x y : float) : bool := SFeqb x y.

(** The binary64 values: [prec = 53], [emax = 1024]. *)
Definition is_binary64 (x : float) : bool := valid_binary 53 1024 x.

(** [float(z)] for an integer [z]: rounded to nearest, ties to even. *)
Definition float_of_Z (z : Z) : float := binary_normalize 53 1024 z 0 false.

(** Exceptions raised by the modelled code. *)
Inductive exception : Type :=
  | KeyError (key : str)
  | ValueError.

Inductive result (A : Type) : Type :=
  | Ok (a : A)
  | Raise (e : exception).
Arguments Ok {A} a.
Arguments Raise {A} e.

#[global] Instance result_ret : MRet result := fun A a => Ok a.

(** Sequencing: an exception raised by [m] propagates. *)
#[global] Instance result_bind : MBind result := fun A B f m =>
  match m with
  | Ok a => f a
  | Raise e => Raise e
  end.

(** A [for] loop whose body may raise. *)
Fixpoint for_each {S A : Type} (body : S -> A -> result S) (s : S) (xs : list A)
  : result S :=
  match xs with
  | [] => Ok s
  | x :: xs' => s' ← body s x; for_each body s' xs'
  end.

(** ** [ocr.Text] *)

Record Text : Type := mkText {
  level : Z;
  page : Z;
  block : Z;
  paragraph : Z;
  line : Z;
  word : Z;
  left : float;
  top : float;
  width : float;
  height : float;
  conf : str;
  text : str
}.

(** Attribute assignment [i.height = v] and [i.top = v]. *)
Definition set_height (t : Text) (v : float) : Text :=
  mkText (level t) (page t) (block t) (paragraph t) (line t) (word t)
         (left t) (top t) (width t) v (conf t) (text t).

Definition set_top (t : Text) (v : float) : Text :=
  mkText (level t) (page t) (block t) (paragraph t) (line t) (word t)
         (left t) v (width t) (height t) (conf t) (text t).

(** ** The object store *)

(** Object identity. *)
Abbreviation loc := positive.

(** The [Text] object at each identity.  A Python list of tokens is a list
    of identities; the same object may occur in it more than once. *)
Abbreviation heap := (loc -> Text).

(** ** [fix_size_and_position] *)

Abbreviation line_key_t := (Z * Z * Z * Z)%type.

(** The dictionary key [(i.page, i.paragraph, i.block, i.line)]. *)
Definition line_key (t : Text) : line_key_t :=
  (page t, paragraph t, block t, line t).

(** [defaultdict(list)], in insertion order:
    [d[k].append(i)] creates the entry at the end when [k] is new. *)
Fixpoint dd_append (d : list (line_key_t * list loc)) (k : line_key_t) (i : loc)
  : list (line_key_t * list loc) :=
  match d with
  | [] => [(k, [i])]
  | (k', g) :: d' =>
      if decide (k = k') then (k', g ++ [i]) :: d'
      else (k', g) :: dd_append d' k i
  end.

(** The first loop: [for i in text: group_by_line[key(i)].append(i)]. *)
Definition group_by_line (text : list loc) (h : heap)
  : list (line_key_t * list loc) :=
  foldl (fun d i => dd_append d (line_key (h i)) i) [] text.

(** [max(iterable)]: keeps the first item and replaces it by a later item
    only when [item > current]; raises [ValueError] on an empty iterable. *)
Definition py_max (xs : list float) : result float :=
  match xs with
  | [] => Raise ValueError
  | x :: xs' => Ok (foldl (fun m y => if float_gt y m then y else m) x xs')
  end.

(** [min(iterable)]: replaces the current item only when [item < current]. *)
Definition py_min (xs : list float) : result float :=
  match xs with
  | [] => Raise ValueError
  | x :: xs' => Ok (foldl (fun m y => if float_lt y m then y else m) x xs')
  end.

(** The inner loop: [for i in group: i.height = height; i.top = top]. *)
Definition assign_group (group : list loc) (hgt tp : float) (h : heap) : heap :=
  foldl (fun h' i => <[i := set_top (set_height (h' i) hgt) tp]> h') h group.

(** The body of [for group in group_by_line.values()]. *)
Definition normalize_group (h : heap) (group : list loc) : result heap :=
  hgt ← py_max ((fun i => height (h i)) <$> group);
  tp ← py_min ((fun i => top (h i)) <$> group);
  Ok (assign_group group hgt tp h).

(** [fix_size_and_position(text)]: the store after the call. *)
Definition fix_size_and_position (text : list loc) (h : heap) : result heap :=
  for_each normalize_group h (snd <$> group_by_line text h).

(** ** [str.strip] *)

(** [str.isspace] on one code point: the white-space table of CPython
    ([_PyUnicode_IsWhitespace]). *)
Definition isspace (c : N) : bool :=
  ((9 <=? c) && (c <=? 13) || (28 <=? c) && (c <=? 32)
   || (c =? 133) || (c =? 160) || (c =? 5760)
   || (8192 <=? c) && (c <=? 8202)
   || (c =? 8232) || (c =? 8233) || (c =? 8239) || (c =? 8287)
   || (c =? 12288))%N.

Fixpoint lstrip (s : str) : str :=
  match s with
  | [] => []
  | c :: s' => if isspace c then lstrip s' else s
  end.

Definition rstrip (s : str) : str := rev (lstrip (rev s)).

(** [s.strip()]: the slice between the first and the last character that is
    not white space. *)
Definition strip (s : str) : str := rstrip (lstrip s).

(** Truth value of a [str]: non-empty. *)
Definition str_truthy (s : str) : bool :=
  match s with [] => false | _ :: _ => true end.

(** ** [get_plain_text] *)

(** One iteration of the loop; the state is [(plain_text, line)], where
    [line] is [None] before the first token. *)
Definition plain_text_step (st : list str * option Z) (i : Text)
  : list str * option Z :=
  let '(plain_text, ln) := st in
  if decide (ln ≠ Some (line i))
  then (plain_text ++ [newline; text i], Some (line i))
  else (plain_text ++ [u " "; text i], ln).

Definition get_plain_text (txt : list Text) : str :=
  if decide (length txt = 0%nat) then []
  else strip (concat (fst (foldl plain_text_step ([], None) txt))).

(** The reference algorithm of the specification, in its words: no
    separator before the first token; before each later token a newline
    when its [line] differs from the previous token's [line] and a single
    space otherwise; the raw text of each token; one final trim. *)
Fixpoint reduce_walk (prev : Z) (rest : list Text) : str :=
  match rest with
  | [] => []
  | t :: rest' =>
      (if decide (line t ≠ prev) then newline else u " ")
        ++ text t ++ reduce_walk (line t) rest'
  end.

Definition reduceToText (tokens : list Text) : str :=
  match tokens with
  | [] => []
  | t :: rest => strip (text t ++ reduce_walk (line t) rest)
  end.

(** ** [Text.from_row] and [get_text] *)

(** One record of [csv.DictReader], with the type [from_row] declares for
    it, [dict[str, str]]: field name to field value. *)
Abbreviation row := (gmap str str).

Section Construction.
(** The built-in conversions [int(s)] and [float(s)] on a [str]: [None]
    stands for the [ValueError] they raise on a string that is not a
    number. *)
Variable py_int : str -> option Z.
Variable py_float : str -> option float.

(** [row[key]]. *)
Definition getitem (r : row) (key : str) : result str :=
  match r !! key with
  | Some v => Ok v
  | None => Raise (KeyError key)
  end.

Definition int_field (r : row) (key : str) : result Z :=
  s ← getitem r key;
  match py_int s with Some z => Ok z | None => Raise ValueError end.

Definition float_field (r : row) (key : str) : result float :=
  s ← getitem r key;
  match py_float s with Some x => Ok x | None => Raise ValueError end.

(** The keyword arguments are evaluated in the order they are written. *)
Definition from_row (r : row) : result Text :=
  level ← int_field r (u "level");
  page ← int_field r (u "page_num");
  block ← int_field r (u "block_num");
  paragraph ← int_field r (u "par_num");
  line ← int_field r (u "line_num");
  word ← int_field r (u "word_num");
  left ← float_field r (u "left");
  top ← float_field r (u "top");
  width ← float_field r (u "width");
  height ← float_field r (u "height");
  conf ← getitem r (u "conf");
  text ← getitem r (u "text");
  Ok (mkText level page block paragraph line word
             left top width height conf text).

(** [list(filter(..., map(Text.from_row, rows)))], item by item: each
    row is converted, then tested, then appended.  [rows] are the records
    [csv.DictReader] yields for the OCR output. *)
Definition get_text (rows : list row) (include_empty : bool)
  : result (list Text) :=
  for_each
    (fun acc r =>
       i ← from_row r;
       Ok (if include_empty || str_truthy (strip (text i))
           then acc ++ [i] else acc))
    [] rows.
End Construction.

(** ** [ImageViewer._setSelectedText] *)

(** [l.index(x)]: the first position holding [x]; [ValueError] when there is
    none.  Rectangle items compare by identity. *)
Fixpoint index (l : list loc) (x : loc) : result nat :=
  match l with
  | [] => Raise ValueError
  | y :: l' =>
      if decide (y = x) then Ok 0%nat
      else i ← index l' x; Ok (S i)
  end.

(** [start, end = sorted([a, b])]. *)
Definition sorted2 (a b : nat) : nat * nat :=
  if (b <? a)%nat then (b, a) else (a, b).

(** [enumerate(l)], counting from [n]. *)
Fixpoint enumerate_from {A : Type} (n : nat) (l : list A) : list (nat * A) :=
  match l with
  | [] => []
  | x :: l' => (n, x) :: enumerate_from (S n) l'
  end.

(** [[rect for i, rect in enumerate(items) if start <= i <= end]]. *)
Definition items_between (items : list loc) (start stop : nat) : list loc :=
  omap (fun '(i, rect) =>
          if (start <=? i)%nat && (i <=? stop)%nat then Some rect else None)
       (enumerate_from 0 items).

(** The first two statements of [_setSelectedText]: the list
    [textReactItemsRange]. *)
Definition textReactItemsRange (items : list loc) (first second : loc)
  : result (list loc) :=
  i1 ← index items first;
  i2 ← index items second;
  let '(start, stop) := sorted2 i1 i2 in
  Ok (items_between items start stop).

(** The whole method: the [_isSelected] flag of every rectangle item after
    the call. *)
Definition _setSelectedText (items : list loc) (first second : loc)
    (selected : loc -> bool) : result (loc -> bool) :=
  range ← textReactItemsRange items first second;
  Ok (foldl (fun sel i => <[i := bool_decide (i ∈ range)]> sel) selected items).

(** [_clearSelectedText]. *)
Definition _clearSelectedText (items : list loc) (selected : loc -> bool)
  : loc -> bool :=
  foldl (fun sel i => <[i := false]> sel) selected items.

(** ** The rest of [ImageViewer] and [IVGraphicsView] *)

(** The state the token code of [main.py] works on: the [Text] objects,
    [ImageViewer._text] and [ImageViewer._textRectItems], and for every
    rectangle item its rectangle, the token it carries
    ([getTextObject]) and its flag [_isSelected]; [_firstText] is the field
    of the graphics view.  [next_id] is the identity the next new object
    gets. *)
Record Viewer : Type := mkViewer {
  texts : heap;
  _text : list loc;
  _textRectItems : list loc;
  rect : loc -> float * float * float * float;
  getTextObject : loc -> loc;
  _isSelected : loc -> bool;
  _firstText : option loc;
  next_id : loc
}.

(** [_copyTextToClipboard]: the string handed to the clipboard. *)
Definition _copyTextToClipboard (v : Viewer) : str :=
  get_plain_text
    (texts v <$> (getTextObject v
                    <$> filter (fun i => _isSelected v i = true)
                               (_textRectItems v))).

(** The signals [clearSelectedText] and [setSelectedText] are connected to
    the two methods and run them at once. *)
Definition emit_clearSelectedText (v : Viewer) : Viewer :=
  mkViewer (texts v) (_text v) (_textRectItems v) (rect v) (getTextObject v)
           (_clearSelectedText (_textRectItems v) (_isSelected v))
           (_firstText v) (next_id v).

Definition emit_setSelectedText (first second : loc) (v : Viewer)
  : result Viewer :=
  sel ← _setSelectedText (_textRectItems v) first second (_isSelected v);
  Ok (mkViewer (texts v) (_text v) (_textRectItems v) (rect v)
               (getTextObject v) sel (_firstText v) (next_id v)).

Definition set_firstText (f : option loc) (v : Viewer) : Viewer :=
  mkViewer (texts v) (_text v) (_textRectItems v) (rect v) (getTextObject v)
           (_isSelected v) f (next_id v).

(** [IVGraphicsView.clearFirstText]. *)
Definition clearFirstText (v : Viewer) : Viewer := set_firstText None v.

(** The three mouse handlers.  [item] is [Some r] when [itemAt(event.pos())]
    is the [IVGraphicsRectItem] [r], and [None] when it is nothing or the
    picture.  [if self._firstText] tests for [None]: an item object is
    true. *)
Definition mousePressEvent (item : option loc) (v : Viewer) : Viewer :=
  let v' := emit_clearSelectedText v in
  match item with
  | Some r => set_firstText (Some r) v'
  | None => v'
  end.

Definition mouseMoveEvent (item : option loc) (v : Viewer) : result Viewer :=
  match item with
  | Some r =>
      match _firstText v with
      | Some f => emit_setSelectedText f r v
      | None => Ok v
      end
  | None => Ok v
  end.

Definition mouseReleaseEvent (v : Viewer) : Viewer := clearFirstText v.

(** A mouse event and the handler it reaches. *)
Inductive mouse_event : Type :=
  | Press (item : option loc)
  | Move (item : option loc)
  | Release.

Definition handle (v : Viewer) (ev : mouse_event) : result Viewer :=
  match ev with
  | Press item => Ok (mousePressEvent item v)
  | Move item => mouseMoveEvent item v
  | Release => Ok (mouseReleaseEvent v)
  end.

(** The rectangle-item loop of [_doOCR], one iteration: a new
    [IVGraphicsRectItem] with the rectangle of token [i], not selected,
    carrying [i], appended to [_textRectItems]. *)
Definition add_rect_item (v : Viewer) (i : loc) : Viewer :=
  let r := next_id v in
  let t := texts v i in
  mkViewer (texts v) (_text v) (_textRectItems v ++ [r])
           (<[r := (left t, top t, width t, height t)]> (rect v))
           (<[r := i]> (getTextObject v))
           (<[r := false]> (_isSelected v))
           (_firstText v) (Pos.succ r).

(** The [Text] objects [get_text] creates, one new object per token. *)
Definition new_tokens (ts : list Text) (h : heap) (next : loc)
  : list loc * heap * loc :=
  foldl (fun '(locs, h', n) t => (locs ++ [n], <[n := t]> h', Pos.succ n))
        ([], h, next) ts.

Section Loading.
Variable py_int : str -> option Z.
Variable py_float : str -> option float.

(** [_doOCR]; [rows] are the records of the OCR output of the file. *)
Definition _doOCR (rows : list row) (v : Viewer) : result Viewer :=
  ts ← get_text py_int py_float rows false;
  let '(text, h, n) := new_tokens ts (texts v) (next_id v) in
  h' ← fix_size_and_position text h;
  Ok (foldl add_rect_item
            (mkViewer h' text [] (rect v) (getTextObject v) (_isSelected v)
                      (_firstText v) n)
            text).

(** The part of [_loadImage] that touches this state: [clearFirstText],
    then [_doOCR]. *)
Definition _loadImage (rows : list row) (v : Viewer) : result Viewer :=
  _doOCR rows (clearFirstText v).
End Loading.

(** * Vocabulary of the specification *)

(** ** Lines *)

(** The tokens of [text] on the line with key [k], in list order. *)
Definition with_key (text : list loc) (h : heap) (k : line_key_t) : list loc :=
  filter (fun l => line_key (h l) = k) text.

(** The line group of token [l]. *)
Definition line_group (text : list loc) (h : heap) (l : loc) : list loc :=
  with_key text h (line_key (h l)).

(** Every entry of the dictionary [d] holds, in order, the tokens of [pre]
    that carry its key, and is not empty. *)
Definition groups_of (h : heap) (pre : list loc)
    (d : list (line_key_t * list loc)) : Prop :=
  forall k g, (k, g) ∈ d -> g <> [] /\ g = with_key pre h k.

(** The geometry [fix_size_and_position] gives to token [l] of the store
    [h]: what [max] and [min] select over the heights and tops of its line
    group. *)
Definition unified (text : list loc) (h : heap) (l : loc) (t : Text) : Prop :=
  exists hgt tp,
    py_max ((fun i => height (h i)) <$> line_group text h l) = Ok hgt
    /\ py_min ((fun i => top (h i)) <$> line_group text h l) = Ok tp
    /\ t = set_top (set_height (h l) hgt) tp.

(** [m] is the greatest (least) of [xs] for the comparison of [float]. *)
Definition is_maximum (m : float) (xs : list float) : Prop :=
  m ∈ xs /\ forall y, y ∈ xs -> float_ge m y = true.

Definition is_minimum (m : float) (xs : list float) : Prop :=
  m ∈ xs /\ forall y, y ∈ xs -> float_le m y = true.

(** No token of the list has a NaN [top] or [height]. *)
Definition no_nan_geometry (text : list loc) (h : heap) : bool :=
  forallb (fun l => negb (is_nan (top (h l))) && negb (is_nan (height (h l)))) text.

(** The grouping invariant between the store [h] before the call and the
    store [h'] after it: tokens with equal key compare equal ([==]) on [top]
    and [height], the shared height is the maximum of the group's heights
    and the shared top the minimum of its tops. *)
Definition lines_unified (text : list loc) (h h' : heap) : Prop :=
  (forall t1 t2, t1 ∈ text -> t2 ∈ text -> line_key (h' t1) = line_key (h' t2) ->
     float_eq (top (h' t1)) (top (h' t2)) = true
     /\ float_eq (height (h' t1)) (height (h' t2)) = true)
  /\ (forall t, t ∈ text ->
        is_maximum (height (h' t)) ((fun i => height (h i)) <$> line_group text h t)
        /\ is_minimum (top (h' t)) ((fun i => top (h i)) <$> line_group text h t)).

(** The bounding box of token [l] only grows vertically from [h] to [h']. *)
Definition grows_vertically (h h' : heap) (l : loc) : Prop :=
  float_ge (height (h' l)) (height (h l)) = true
  /\ float_le (top (h' l)) (top (h l)) = true.

(** Two tokens agree on every field but [top] and [height]. *)
Definition same_but_geometry (t t' : Text) : Prop :=
  left t' = left t /\ width t' = width t /\ level t' = level t
  /\ page t' = page t /\ block t' = block t /\ paragraph t' = paragraph t
  /\ line t' = line t /\ word t' = word t /\ conf t' = conf t
  /\ text t' = text t.

(** ** Records *)

(** The columns [Text.from_row] converts with [int], with [float], and
    those it takes as they are. *)
Definition int_columns : list str :=
  [u "level"; u "page_num"; u "block_num"; u "par_num"; u "line_num";
   u "word_num"].

Definition float_columns : list str :=
  [u "left"; u "top"; u "width"; u "height"].

Definition str_columns : list str := [u "conf"; u "text"].

Section Records.
Variable py_int : str -> option Z.
Variable py_float : str -> option float.

(** Column [k] is present in [r] and [conv] accepts its value. *)
Definition column_ok {A : Type} (conv : str -> option A) (r : row) (k : str)
  : bool :=
  match r !! k with
  | Some s => match conv s with Some _ => true | None => false end
  | None => false
  end.

(** Every required column is present and every numeric column holds a
    number. *)
Definition well_formed (r : row) : bool :=
  forallb (column_ok py_int r) int_columns
  && forallb (column_ok py_float r) float_columns
  && forallb (column_ok Some r) str_columns.

(** A required column is absent, or a numeric column does not hold a
    number. *)
Definition malformed (r : row) : Prop :=
  (exists k, k ∈ int_columns ++ float_columns ++ str_columns /\ r !! k = None)
  \/ (exists k s, k ∈ int_columns /\ r !! k = Some s /\ py_int s = None)
  \/ (exists k s, k ∈ float_columns /\ r !! k = Some s /\ py_float s = None).

(** Token [t] is the typed reading of record [r]. *)
Definition typed_from (r : row) (t : Text) : Prop :=
  r !! u "level" ≫= py_int = Some (level t)
  /\ r !! u "page_num" ≫= py_int = Some (page t)
  /\ r !! u "block_num" ≫= py_int = Some (block t)
  /\ r !! u "par_num" ≫= py_int = Some (paragraph t)
  /\ r !! u "line_num" ≫= py_int = Some (line t)
  /\ r !! u "word_num" ≫= py_int = Some (word t)
  /\ r !! u "left" ≫= py_float = Some (left t)
  /\ r !! u "top" ≫= py_float = Some (top t)
  /\ r !! u "width" ≫= py_float = Some (width t)
  /\ r !! u "height" ≫= py_float = Some (height t)
  /\ r !! u "conf" = Some (conf t)
  /\ r !! u "text" = Some (text t).
End Records.

(** The twelve columns [Text.from_row] reads, in the order it reads them. *)
Definition columns : list str := int_columns ++ float_columns ++ str_columns.

(** What an exception of [Text.from_row] on record [r] tells: a [KeyError]
    carries a required column that [r] lacks; a [ValueError] comes from a
    numeric column whose value is not a number. *)
Definition explains (py_int : str -> option Z) (py_float : str -> option float)
    (r : row) (e : exception) : Prop :=
  match e with
  | KeyError k => k ∈ columns /\ r !! k = None
  | ValueError =>
      (exists k s, k ∈ int_columns /\ r !! k = Some s /\ py_int s = None)
      \/ (exists k s, k ∈ float_columns /\ r !! k = Some s /\ py_float s = None)
  end.

(** The text of [t] is not empty after trimming. *)
Definition nonblank (t : Text) : Prop := strip (text t) <> [].

(** ** Sample records *)

(** [int] and [float] on plain ASCII decimal integers, the form in which
    the OCR engine writes the numeric columns. *)
Fixpoint digits_value (acc : Z) (s : str) : option Z :=
  match s with
  | [] => Some acc
  | c :: s' =>
      if ((48 <=? c) && (c <=? 57))%N
      then digits_value (10 * acc + Z.of_N (c - 48)) s'
      else None
  end.

Definition int_of_decimal (s : str) : option Z :=
  match s with
  | [] => None
  | 45%N :: c :: d => Z.opp <$> digits_value 0 (c :: d)
  | _ => digits_value 0 s
  end.

Definition float_of_decimal (s : str) : option float :=
  float_of_Z <$> int_of_decimal s.

(** A record with the twelve columns; [lft] is the value of column [left]
    and [txt] the value of column [text]. *)
Definition sample_row (lft txt : String.string) : row :=
  list_to_map
    [ (u "level", u "5"); (u "page_num", u "1"); (u "block_num", u "1");
      (u "par_num", u "1"); (u "line_num", u "1"); (u "word_num", u "1");
      (u "left", u lft); (u "top", u "98"); (u "width", u "40");
      (u "height", u "14"); (u "conf", u "96"); (u "text", u txt) ].

(** Three records; the text of the second is blank. *)
Definition sample_rows : list row :=
  [sample_row "1" "Hello"; sample_row "2" "   "; sample_row "3" "Foo"].

(** The tokens [get_text] returns for them by default. *)
Definition sample_tokens : list Text :=
  match get_text int_of_decimal float_of_decimal sample_rows false with
  | Ok ts => ts
  | Raise _ => []
  end.

(** ** Sample data *)

(** A word token on page 1, block 1, paragraph 1. *)
Definition sample_token (ln : Z) (tp hgt : float) (s : String.string) : Text :=
  mkText 5 1 1 1 ln 1 (float_of_Z 0) tp (float_of_Z 10) hgt (u "90") (u s).

(** Two tokens on line 1 with heights 10, 14 and tops 100, 98, and one token
    on line 2 with height 12 and top 140. *)
Definition sample_store : heap := fun l =>
  match l with
  | 1%positive => sample_token 1 (float_of_Z 100) (float_of_Z 10) "Hello"
  | 2%positive => sample_token 1 (float_of_Z 98) (float_of_Z 14) "world"
  | _ => sample_token 2 (float_of_Z 140) (float_of_Z 12) "Foo"
  end.

(** Two tokens on one line; the first has a NaN [top] and a NaN [height]. *)
Definition nan_store : heap := fun l =>
  match l with
  | 1%positive => sample_token 1 S754_nan S754_nan "Hello"
  | _ => sample_token 1 (float_of_Z 98) (float_of_Z 5) "world"
  end.

(** ** The viewer *)

(** The item a mouse event is over, when it is over one. *)
Definition event_item (ev : mouse_event) : option loc :=
  match ev with
  | Press item | Move item => item
  | Release => None
  end.

(** The event is over nothing or over a rectangle item of the list. *)
Definition over_items (v : Viewer) (ev : mouse_event) : Prop :=
  forall r, event_item ev = Some r -> r ∈ _textRectItems v.

(** The item a drag started on, while there is one, is in the list. *)
Definition first_in_items (v : Viewer) : Prop :=
  forall f, _firstText v = Some f -> f ∈ _textRectItems v.

(** The handlers leave the list, the tokens and the item-to-token map as
    they are. *)
Definition same_scene (v v' : Viewer) : Prop :=
  _textRectItems v' = _textRectItems v
  /\ texts v' = texts v
  /\ getTextObject v' = getTextObject v.

(** The rectangle [(left, top, width, height)] of a token. *)
Definition geometry (t : Text) : float * float * float * float :=
  (left t, top t, width t, height t).

(** A viewer with nothing loaded. *)
Definition empty_viewer : Viewer :=
  mkViewer (fun _ => sample_token 0 (float_of_Z 0) (float_of_Z 0) "")
           [] [] (fun _ => (float_of_Z 0, float_of_Z 0, float_of_Z 0, float_of_Z 0))
           (fun _ => 1%positive) (fun _ => false) None 1%positive.

(** The viewer after loading the three sample records. *)
Definition sample_viewer : Viewer :=
  match _loadImage int_of_decimal float_of_decimal sample_rows empty_viewer with
  | Ok v => v
  | Raise _ => empty_viewer
  end.

(** * Properties *)

(** ** The order of [float] away from NaN *)

Lemma SFcompare_finite_pos m1 e1 m2 e2 :
  SFcompare (S754_finite false m1 e1) (S754_finite false m2 e2)
  = Some (match e1 ?= e2 with Eq => (m1 ?= m2)%positive | c => c end).
Proof. simpl. unfold Pos.compare. by destruct (e1 ?= e2). Qed.

Lemma SFcompare_finite_neg m1 e1 m2 e2 :
  SFcompare (S754_finite true m1 e1) (S754_finite true m2 e2)
  = Some (match e2 ?= e1 with Eq => (m2 ?= m1)%positive | c => c end).
Proof.
  simpl. unfold Pos.compare. rewrite (Z.compare_antisym e1 e2).
  rewrite (Pos.compare_cont_antisym m1 m2 Eq).
  by destruct (e1 ?= e2).
Qed.

Ltac cmp_cases :=
  repeat match goal with
    | |- context [ (?a ?= ?b)%Z ] => destruct (Z.compare_spec a b)
    | H : context [ (?a ?= ?b)%Z ] |- _ => destruct (Z.compare_spec a b)
    | |- context [ (?a ?= ?b)%positive ] => destruct (Pos.compare_spec a b)
    | H : context [ (?a ?= ?b)%positive ] |- _ => destruct (Pos.compare_spec a b)
    end.

Lemma float_le_trans (x y z : float) :
  float_le x y = true -> float_le y z = true -> float_le x z = true.
Proof.
  unfold float_le, SFleb.
  destruct x as [sx|sx| |sx mx ex], y as [sy|sy| |sy my ey],
    z as [sz|sz| |sz mz ez];
    try destruct sx; try destruct sy; try destruct sz;
    rewrite ?SFcompare_finite_pos, ?SFcompare_finite_neg;
    try (simpl; congruence).
  all: cmp_cases; subst; simpl; try congruence; try lia.
Qed.

Lemma float_le_total (x y : float) :
  is_nan x = false -> is_nan y = false ->
  float_lt y x = false -> float_le x y = true.
Proof.
  unfold float_le, float_lt, SFleb, SFltb.
  destruct x as [sx|sx| |sx mx ex], y as [sy|sy| |sy my ey];
    try destruct sx; try destruct sy;
    rewrite ?SFcompare_finite_pos, ?SFcompare_finite_neg;
    try (simpl; congruence).
  all: cmp_cases; subst; simpl; try congruence; try lia.
Qed.

Lemma float_lt_le (x y : float) : float_lt x y = true -> float_le x y = true.
Proof. unfold float_lt, float_le, SFltb, SFleb. by destruct (SFcompare x y) as [[]|]. Qed.

Lemma float_le_refl (x : float) : is_nan x = false -> float_le x x = true.
Proof.
  unfold float_le, SFleb.
  destruct x as [[]|[]| |[] m e]; rewrite ?SFcompare_finite_pos, ?SFcompare_finite_neg;
    try (simpl; congruence).
  all: rewrite Z.compare_refl, Pos.compare_refl; done.
Qed.

(** ** [max] and [min] *)

Lemma fold_max_elem (x : float) (xs : list float) :
  foldl (fun m y => if float_gt y m then y else m) x xs ∈ x :: xs.
Proof.
  revert x. induction xs as [|a xs IH]; intros x; simpl; [set_solver|].
  specialize (IH (if float_gt a x then a else x)).
  destruct (float_gt a x); set_solver.
Qed.

Lemma fold_min_elem (x : float) (xs : list float) :
  foldl (fun m y => if float_lt y m then y else m) x xs ∈ x :: xs.
Proof.
  revert x. induction xs as [|a xs IH]; intros x; simpl; [set_solver|].
  specialize (IH (if float_lt a x then a else x)).
  destruct (float_lt a x); set_solver.
Qed.

Lemma fold_max_const (x : float) (xs : list float) :
  (forall y, y ∈ xs -> y = x) ->
  foldl (fun m y => if float_gt y m then y else m) x xs = x.
Proof.
  induction xs as [|a xs IH]; intros Hc; simpl; [done|].
  rewrite (Hc a) by set_solver.
  destruct (float_gt x x); apply IH; set_solver.
Qed.

Lemma fold_min_const (x : float) (xs : list float) :
  (forall y, y ∈ xs -> y = x) ->
  foldl (fun m y => if float_lt y m then y else m) x xs = x.
Proof.
  induction xs as [|a xs IH]; intros Hc; simpl; [done|].
  rewrite (Hc a) by set_solver.
  destruct (float_lt x x); apply IH; set_solver.
Qed.

Lemma fold_max_ge (x : float) (xs : list float) :
  (forall y, y ∈ x :: xs -> is_nan y = false) ->
  forall y, y ∈ x :: xs ->
    float_ge (foldl (fun m y => if float_gt y m then y else m) x xs) y = true.
Proof.
  revert x. induction xs as [|a xs IH]; intros x Hn y Hy; simpl.
  - apply list_elem_of_singleton in Hy as ->. apply float_le_refl, Hn. set_solver.
  - assert (Hx : is_nan x = false) by (apply Hn; set_solver).
    assert (Ha : is_nan a = false) by (apply Hn; set_solver).
    set (x' := if float_gt a x then a else x).
    assert (Hx' : float_le x x' = true /\ float_le a x' = true /\ is_nan x' = false).
    { subst x'. destruct (float_gt a x) eqn:E.
      - split_and!; [by apply float_lt_le | by apply float_le_refl | done].
      - split_and!; [by apply float_le_refl | by apply float_le_total | done]. }
    destruct Hx' as (Hxx' & Hax' & Hnx').
    assert (Hall : forall z, z ∈ x' :: xs -> is_nan z = false).
    { intros z [->|Hz]%elem_of_cons; [done|]. apply Hn. set_solver. }
    pose proof (IH x' Hall) as IH'.
    apply elem_of_cons in Hy as [->|[->|Hy]%elem_of_cons].
    + eapply float_le_trans; [exact Hxx'|]. apply IH'. set_solver.
    + eapply float_le_trans; [exact Hax'|]. apply IH'. set_solver.
    + apply IH'. set_solver.
Qed.

Lemma fold_min_le (x : float) (xs : list float) :
  (forall y, y ∈ x :: xs -> is_nan y = false) ->
  forall y, y ∈ x :: xs ->
    float_le (foldl (fun m y => if float_lt y m then y else m) x xs) y = true.
Proof.
  revert x. induction xs as [|a xs IH]; intros x Hn y Hy; simpl.
  - apply list_elem_of_singleton in Hy as ->. apply float_le_refl, Hn. set_solver.
  - assert (Hx : is_nan x = false) by (apply Hn; set_solver).
    assert (Ha : is_nan a = false) by (apply Hn; set_solver).
    set (x' := if float_lt a x then a else x).
    assert (Hx' : float_le x' x = true /\ float_le x' a = true /\ is_nan x' = false).
    { subst x'. destruct (float_lt a x) eqn:E.
      - split_and!; [by apply float_lt_le | by apply float_le_refl | done].
      - split_and!; [by apply float_le_refl | by apply float_le_total | done]. }
    destruct Hx' as (Hxx' & Hax' & Hnx').
    assert (Hall : forall z, z ∈ x' :: xs -> is_nan z = false).
    { intros z [->|Hz]%elem_of_cons; [done|]. apply Hn. set_solver. }
    pose proof (IH x' Hall) as IH'.
    apply elem_of_cons in Hy as [->|[->|Hy]%elem_of_cons].
    + eapply float_le_trans; [|exact Hxx']. apply IH'. set_solver.
    + eapply float_le_trans; [|exact Hax']. apply IH'. set_solver.
    + apply IH'. set_solver.
Qed.

(** [max] and [min] return on a non-empty argument. *)
Lemma py_max_nonempty (xs : list float) :
  xs <> [] -> exists m, py_max xs = Ok m /\ m ∈ xs.
Proof.
  destruct xs as [|x xs]; [done|]. intros _. eexists. split; [done|].
  apply fold_max_elem.
Qed.

Lemma py_min_nonempty (xs : list float) :
  xs <> [] -> exists m, py_min xs = Ok m /\ m ∈ xs.
Proof.
  destruct xs as [|x xs]; [done|]. intros _. eexists. split; [done|].
  apply fold_min_elem.
Qed.

Lemma py_max_ge (xs : list float) (m : float) :
  py_max xs = Ok m -> (forall y, y ∈ xs -> is_nan y = false) ->
  forall y, y ∈ xs -> float_ge m y = true.
Proof.
  destruct xs as [|x xs]; [done|]. intros [= <-]. apply fold_max_ge.
Qed.

Lemma py_min_le (xs : list float) (m : float) :
  py_min xs = Ok m -> (forall y, y ∈ xs -> is_nan y = false) ->
  forall y, y ∈ xs -> float_le m y = true.
Proof.
  destruct xs as [|x xs]; [done|]. intros [= <-]. apply fold_min_le.
Qed.

Lemma py_max_const (xs : list float) (x : float) :
  xs <> [] -> (forall y, y ∈ xs -> y = x) -> py_max xs = Ok x.
Proof.
  destruct xs as [|a xs]; [done|]. intros _ Hc. simpl.
  rewrite (Hc a) by set_solver. f_equal. apply fold_max_const. set_solver.
Qed.

Lemma py_min_const (xs : list float) (x : float) :
  xs <> [] -> (forall y, y ∈ xs -> y = x) -> py_min xs = Ok x.
Proof.
  destruct xs as [|a xs]; [done|]. intros _ Hc. simpl.
  rewrite (Hc a) by set_solver. f_equal. apply fold_min_const. set_solver.
Qed.

(** ** The line normalizer *)

Lemma set_geometry_twice (t : Text) (hgt tp : float) :
  set_top (set_height (set_top (set_height t hgt) tp) hgt) tp
  = set_top (set_height t hgt) tp.
Proof. done. Qed.

Lemma line_key_set_geometry (t : Text) (hgt tp : float) :
  line_key (set_top (set_height t hgt) tp) = line_key t.
Proof. done. Qed.

Section Grouping.
Variable h : heap.

Lemma dd_append_keys (d : list (line_key_t * list loc)) k i :
  (dd_append d k i).*1 = if decide (k ∈ d.*1) then d.*1 else d.*1 ++ [k].
Proof.
  induction d as [|[k' g] d IH]; csimpl.
  - done.
  - destruct (decide (k = k')) as [->|Hne]; csimpl.
    + by rewrite decide_True by set_solver.
    + rewrite IH. destruct (decide (k ∈ d.*1)).
      * by rewrite decide_True by set_solver.
      * by rewrite decide_False by set_solver.
Qed.

Lemma with_key_snoc pre x k :
  with_key (pre ++ [x]) h k
  = with_key pre h k ++ (if decide (line_key (h x) = k) then [x] else []).
Proof.
  unfold with_key. by rewrite filter_app.
Qed.

Lemma dd_append_groups pre d x :
  NoDup d.*1 -> groups_of h pre d ->
  (line_key (h x) ∉ d.*1 -> with_key pre h (line_key (h x)) = []) ->
  groups_of h (pre ++ [x]) (dd_append d (line_key (h x)) x).
Proof.
  unfold groups_of.
  induction d as [|[k' g'] d IH]; csimpl; intros Hnd Hg Hnew k g Hin.
  - apply list_elem_of_singleton in Hin as [= -> ->]. split; [done|].
    rewrite with_key_snoc, Hnew by set_solver. by rewrite decide_True.
  - apply NoDup_cons in Hnd as [Hk' Hnd].
    destruct (decide (line_key (h x) = k')) as [Heq|Hneq].
    + apply elem_of_cons in Hin as [[= -> ->]|Hin].
      * destruct (Hg k' g') as [? ->]; [set_solver|].
        split; [by destruct (with_key pre h k')|].
        by rewrite with_key_snoc, decide_True.
      * destruct (Hg k g) as [? ->]; [set_solver|]. split; [done|].
        rewrite with_key_snoc, decide_False, app_nil_r; [done|].
        intros E. apply Hk'. rewrite <- Heq, E.
        by apply (list_elem_of_fmap_2 fst) in Hin.
    + apply elem_of_cons in Hin as [[= -> ->]|Hin].
      * destruct (Hg k' g') as [? ->]; [set_solver|]. split; [done|].
        by rewrite with_key_snoc, decide_False, app_nil_r.
      * apply (IH Hnd); [set_solver| |done].
        intros Hnotin. apply Hnew. set_solver.
Qed.

(** What the first loop builds: distinct keys, every token's key among
    them, and under each key the tokens of that line. *)
Lemma group_by_line_spec (text : list loc) :
  NoDup (group_by_line text h).*1
  /\ groups_of h text (group_by_line text h)
  /\ (forall l, l ∈ text -> line_key (h l) ∈ (group_by_line text h).*1).
Proof.
  unfold group_by_line.
  induction text as [|x pre IH] using rev_ind.
  - simpl. split_and!; [constructor | intros ? ? []%elem_of_nil | intros ? []%elem_of_nil].
  - rewrite foldl_app. simpl.
    set (d := foldl (fun d i => dd_append d (line_key (h i)) i) [] pre) in *.
    destruct IH as (Hnd & Hg & Hk).
    assert (Hnew : line_key (h x) ∉ d.*1 -> with_key pre h (line_key (h x)) = []).
    { intros Hnotin. apply elem_of_nil_inv. intros l [Hl Hin]%list_elem_of_filter.
      apply Hnotin. rewrite <- Hl. by apply Hk. }
    split_and!.
    + rewrite dd_append_keys. destruct (decide _); [done|].
      apply NoDup_app. split_and!; [done| |apply NoDup_singleton].
      intros k Hin ->%list_elem_of_singleton. done.
    + by apply dd_append_groups.
    + intros l [Hl| ->%list_elem_of_singleton]%elem_of_app;
        rewrite dd_append_keys; destruct (decide _); set_solver.
Qed.
End Grouping.

Lemma assign_group_lookup (group : list loc) (hgt tp : float) (h : heap) (l : loc) :
  assign_group group hgt tp h l
  = if decide (l ∈ group) then set_top (set_height (h l) hgt) tp else h l.
Proof.
  unfold assign_group. revert h.
  induction group as [|i group IH]; intros h; csimpl.
  - done.
  - rewrite IH. destruct (decide (l = i)) as [->|Hne].
    + rewrite fn_lookup_insert, (decide_True (P := i ∈ i :: group)) by set_solver.
      by destruct (decide (i ∈ group)).
    + rewrite fn_lookup_insert_ne by done.
      destruct (decide (l ∈ group)).
      * by rewrite decide_True by set_solver.
      * by rewrite decide_False by set_solver.
Qed.

(** The second loop, started on the groups [d] that are still to be
    processed in a store [h1] that agrees with the initial store [h] on
    them. *)
Lemma normalize_groups_spec (text : list loc) (h : heap)
    (d : list (line_key_t * list loc)) (h1 : heap) :
  NoDup d.*1 -> groups_of h text d ->
  (forall l, line_key (h l) ∈ d.*1 -> h1 l = h l) ->
  exists h', for_each normalize_group h1 d.*2 = Ok h'
    /\ (forall l, l ∈ text -> line_key (h l) ∈ d.*1 -> unified text h l (h' l))
    /\ (forall l, ~ (l ∈ text /\ line_key (h l) ∈ d.*1) -> h' l = h1 l).
Proof.
  revert h1. induction d as [|[k g] d IH]; intros h1 Hnd Hg Hsame; csimpl.
  - exists h1. split_and!; [done|set_solver|done].
  - apply NoDup_cons in Hnd as [Hk Hnd].
    destruct (Hg k g) as [Hne Hgk]; [set_solver|].
    assert (Hing : forall l, l ∈ g <-> l ∈ text /\ line_key (h l) = k).
    { intros l. rewrite Hgk. unfold with_key. rewrite list_elem_of_filter. tauto. }
    assert (Hread : forall (f : Text -> float),
               (fun i => f (h1 i)) <$> g = (fun i => f (h i)) <$> g).
    { intros f. apply list_fmap_ext. intros _ i Hi%list_elem_of_lookup_2.
      rewrite Hsame; [done|]. apply Hing in Hi as [_ ->]. set_solver. }
    destruct (py_max_nonempty ((fun i => height (h i)) <$> g)) as (hgt & Hmax & _).
    { by destruct g. }
    destruct (py_min_nonempty ((fun i => top (h i)) <$> g)) as (tp & Hmin & _).
    { by destruct g. }
    assert (Hstep : normalize_group h1 g = Ok (assign_group g hgt tp h1)).
    { unfold normalize_group. rewrite (Hread height), (Hread top), Hmax. csimpl.
      by rewrite Hmin. }
    rewrite Hstep. csimpl.
    destruct (IH (assign_group g hgt tp h1)) as (h' & Hrun & Hin & Hout).
    + done.
    + intros k' g' Hk'. apply Hg. set_solver.
    + intros l Hl. rewrite assign_group_lookup, decide_False.
      * apply Hsame. set_solver.
      * intros [_ E]%Hing. apply Hk. by rewrite <- E.
    + exists h'. split; [done|]. split.
      * intros l Hl [E|Hkl]%elem_of_cons; [|by apply Hin].
        rewrite Hout by (intros [_ ?]; apply Hk; by rewrite <- E).
        rewrite assign_group_lookup, decide_True by (by apply Hing).
        rewrite Hsame by set_solver.
        exists hgt, tp. unfold line_group. rewrite E, <- Hgk. done.
      * intros l Hl. rewrite Hout by set_solver.
        rewrite assign_group_lookup, decide_False; [done|].
        intros [? E]%Hing. apply Hl. set_solver.
Qed.

(** [fix_size_and_position] always returns; a token outside the list is not
    touched and a token of the list gets the unified geometry of its line. *)
Lemma fix_size_and_position_spec (text : list loc) (h : heap) :
  exists h', fix_size_and_position text h = Ok h'
    /\ (forall l, l ∈ text -> unified text h l (h' l))
    /\ (forall l, l ∉ text -> h' l = h l).
Proof.
  destruct (group_by_line_spec h text) as (Hnd & Hg & Hk).
  destruct (normalize_groups_spec text h (group_by_line text h) h Hnd Hg)
    as (h' & Hrun & Hin & Hout); [done|].
  exists h'. split; [done|]. split.
  - intros l Hl. apply Hin; [done|by apply Hk].
  - intros l Hl. apply Hout. tauto.
Qed.

Lemma unified_line_key text h l t : unified text h l t -> line_key t = line_key (h l).
Proof. by intros (hgt & tp & _ & _ & ->). Qed.

Lemma with_key_ext (text : list loc) (h1 h2 : heap) (k : line_key_t) :
  (forall l, line_key (h1 l) = line_key (h2 l)) ->
  with_key text h1 k = with_key text h2 k.
Proof.
  intros E. unfold with_key. apply list_filter_iff. intros l. by rewrite E.
Qed.

Lemma elem_of_line_group (text : list loc) (h : heap) (l l' : loc) :
  l' ∈ line_group text h l <-> line_key (h l') = line_key (h l) /\ l' ∈ text.
Proof. unfold line_group, with_key. by rewrite list_elem_of_filter. Qed.

Lemma line_group_self (text : list loc) (h : heap) (l : loc) :
  l ∈ text -> l ∈ line_group text h l.
Proof. intros Hl. by apply elem_of_line_group. Qed.

(** The keys are the same before and after the call. *)
Lemma fix_size_and_position_line_key (text : list loc) (h h' : heap) :
  fix_size_and_position text h = Ok h' ->
  forall l, line_key (h' l) = line_key (h l).
Proof.
  intros Hrun l.
  destruct (fix_size_and_position_spec text h) as (h'' & Hrun' & Hin & Hout).
  rewrite Hrun in Hrun'. injection Hrun' as <-.
  destruct (decide (l ∈ text)) as [Hl|Hl].
  - apply (unified_line_key text). by apply Hin.
  - by rewrite Hout.
Qed.

(** Once a line has been unified, [max] and [min] over it select the
    values it already has. *)
Lemma unified_again (text : list loc) (h h1 : heap) (l : loc) :
  (forall l', l' ∈ text -> unified text h l' (h1 l')) ->
  (forall l', line_key (h1 l') = line_key (h l')) ->
  l ∈ text ->
  forall t, unified text h1 l t -> t = h1 l.
Proof.
  intros Hin Hkey Hl t (hgt2 & tp2 & Hmax2 & Hmin2 & ->).
  destruct (Hin l Hl) as (hgt & tp & Hmax & Hmin & E).
  assert (Hg : line_group text h1 l = line_group text h l).
  { unfold line_group. rewrite Hkey. by apply with_key_ext. }
  rewrite Hg in Hmax2, Hmin2.
  assert (Hall : forall l', l' ∈ line_group text h l ->
            height (h1 l') = hgt /\ top (h1 l') = tp).
  { intros l' [Hk Hl']%elem_of_line_group.
    destruct (Hin l' Hl') as (hgt' & tp' & Hmax' & Hmin' & ->).
    unfold line_group in Hmax', Hmin'. rewrite Hk in Hmax', Hmin'.
    fold (line_group text h l) in Hmax', Hmin'.
    rewrite Hmax in Hmax'. rewrite Hmin in Hmin'.
    injection Hmax' as <-. injection Hmin' as <-. done. }
  assert (Hne : line_group text h l <> []).
  { intros E0. pose proof (line_group_self text h l Hl) as Hself.
    rewrite E0 in Hself. by apply elem_of_nil in Hself. }
  rewrite (py_max_const _ hgt) in Hmax2.
  - rewrite (py_min_const _ tp) in Hmin2.
    + injection Hmax2 as <-. injection Hmin2 as <-. rewrite E. done.
    + by destruct (line_group text h l).
    + intros y (l' & -> & Hl')%list_elem_of_fmap. by apply Hall.
  - by destruct (line_group text h l).
  - intros y (l' & -> & Hl')%list_elem_of_fmap. by apply Hall.
Qed.

Lemma float_eq_refl (x : float) : is_nan x = false -> float_eq x x = true.
Proof.
  unfold float_eq, SFeqb.
  destruct x as [[]|[]| |[] m e]; rewrite ?SFcompare_finite_pos, ?SFcompare_finite_neg;
    try (simpl; congruence).
  all: rewrite Z.compare_refl, Pos.compare_refl; done.
Qed.

Lemma no_nan_geometry_elem (text : list loc) (h : heap) (l : loc) :
  no_nan_geometry text h = true -> l ∈ text ->
  is_nan (top (h l)) = false /\ is_nan (height (h l)) = false.
Proof.
  unfold no_nan_geometry. rewrite forallb_forall. intros Hall Hl%list_elem_of_In.
  apply Hall in Hl. apply andb_true_iff in Hl as [H1 H2].
  by apply negb_true_iff in H1, H2.
Qed.

(** Away from NaN the unified geometry is the greatest height and the least
    top of the line. *)
Lemma unified_extrema (text : list loc) (h : heap) (l : loc) (t : Text) :
  no_nan_geometry text h = true -> unified text h l t ->
  is_maximum (height t) ((fun i => height (h i)) <$> line_group text h l)
  /\ is_minimum (top t) ((fun i => top (h i)) <$> line_group text h l).
Proof.
  intros Hnan (hgt & tp & Hmax & Hmin & ->). simpl.
  assert (Hh : forall y, y ∈ (fun i => height (h i)) <$> line_group text h l ->
                 is_nan y = false).
  { intros y (l' & -> & [_ Hl']%elem_of_line_group)%list_elem_of_fmap.
    by apply (no_nan_geometry_elem text). }
  assert (Ht : forall y, y ∈ (fun i => top (h i)) <$> line_group text h l ->
                 is_nan y = false).
  { intros y (l' & -> & [_ Hl']%elem_of_line_group)%list_elem_of_fmap.
    by apply (no_nan_geometry_elem text). }
  split; split.
  - destruct (py_max_nonempty ((fun i => height (h i)) <$> line_group text h l))
      as (m & Hm & Hin); [by intros E; rewrite E in Hmax|].
    rewrite Hmax in Hm. by injection Hm as <-.
  - by apply py_max_ge.
  - destruct (py_min_nonempty ((fun i => top (h i)) <$> line_group text h l))
      as (m & Hm & Hin); [by intros E; rewrite E in Hmin|].
    rewrite Hmin in Hm. by injection Hm as <-.
  - by apply py_min_le.
Qed.

(** Tokens of one line receive the very same [top] and [height], NaN or
    not. *)
Lemma unified_same_line (text : list loc) (h : heap) (l1 l2 : loc) (t1 t2 : Text) :
  line_key (h l1) = line_key (h l2) ->
  unified text h l1 t1 -> unified text h l2 t2 ->
  top t1 = top t2 /\ height t1 = height t2.
Proof.
  intros Hk (hgt1 & tp1 & Hmax1 & Hmin1 & ->) (hgt2 & tp2 & Hmax2 & Hmin2 & ->).
  unfold line_group in *. rewrite Hk, Hmax2 in Hmax1. rewrite Hk, Hmin2 in Hmin1.
  injection Hmax1 as <-. injection Hmin1 as <-. done.
Qed.

(** Running the normalizer on its own result changes no token. *)
Lemma fix_size_and_position_twice (text : list loc) (h h1 h2 : heap) :
  fix_size_and_position text h = Ok h1 ->
  fix_size_and_position text h1 = Ok h2 ->
  forall l, h2 l = h1 l.
Proof.
  intros Hrun1 Hrun2 l.
  destruct (fix_size_and_position_spec text h) as (h1' & E1 & Hin1 & Hout1).
  rewrite Hrun1 in E1. injection E1 as <-.
  destruct (fix_size_and_position_spec text h1) as (h2' & E2 & Hin2 & Hout2).
  rewrite Hrun2 in E2. injection E2 as <-.
  destruct (decide (l ∈ text)) as [Hl|Hl]; [|by apply Hout2].
  apply (unified_again text h h1 l); [done| |done|by apply Hin2].
  by apply (fix_size_and_position_line_key text).
Qed.

(** After the call the tokens of one line carry one [top] and one
    [height], whatever the values are. *)
Lemma normalizer_same_row (text : list loc) (h h' : heap) (t1 t2 : loc) :
  fix_size_and_position text h = Ok h' ->
  t1 ∈ text -> t2 ∈ text -> line_key (h' t1) = line_key (h' t2) ->
  top (h' t1) = top (h' t2) /\ height (h' t1) = height (h' t2).
Proof.
  intros Hrun H1 H2 Hk.
  rewrite !(fix_size_and_position_line_key text h h' Hrun) in Hk.
  destruct (fix_size_and_position_spec text h) as (h'' & E & Hin & _).
  rewrite Hrun in E. injection E as <-.
  by apply (unified_same_line text h t1 t2); [|apply Hin..].
Qed.

(** ** Claims on the line normalizer *)

(** C1 (as amended).  For every token list in which no token has a NaN top
    or height: after [fix_size_and_position] has run once, any two tokens
    with equal (page, paragraph, block, line) key have [t1.top == t2.top] and
    [t1.height == t2.height]; the shared height is the maximum height of the
    group and the shared top the minimum top of the group; on an empty list
    the call changes nothing. *)
Theorem normalizer_unifies_lines (text : list loc) (h : heap) :
  no_nan_geometry text h = true ->
  exists h', fix_size_and_position text h = Ok h'
    /\ lines_unified text h h'
    /\ (text = [] -> h' = h).
Proof.
  intros Hnan.
  destruct (fix_size_and_position_spec text h) as (h' & Hrun & Hin & Hout).
  exists h'. split; [done|]. split; [split|].
  - intros t1 t2 H1 H2 Hk.
    rewrite !(fix_size_and_position_line_key text h h' Hrun) in Hk.
    destruct (unified_same_line text h t1 t2 _ _ Hk (Hin t1 H1) (Hin t2 H2))
      as [-> ->].
    destruct (unified_extrema text h t2 _ Hnan (Hin t2 H2))
      as [[(l1 & E1 & [_ Hl1]%elem_of_line_group)%list_elem_of_fmap _]
          [(l2 & E2 & [_ Hl2]%elem_of_line_group)%list_elem_of_fmap _]].
    split; apply float_eq_refl.
    + rewrite E2. by apply (no_nan_geometry_elem text).
    + rewrite E1. by apply (no_nan_geometry_elem text).
  - intros t Ht. apply (unified_extrema text h t (h' t) Hnan). by apply Hin.
  - intros ->. simpl in Hrun. by injection Hrun as <-.
Qed.

(** C4.  [fix_size_and_position] changes only [top] and [height]: read
    through the list before and after the call, the tokens correspond
    position by position (same length, same order) and agree on [left],
    [width], [level], [page], [block], [paragraph], [line], [word], [conf]
    and [text]; so does every object of the store. *)
Theorem normalizer_frame (text : list loc) (h : heap) :
  exists h', fix_size_and_position text h = Ok h'
    /\ length (h' <$> text) = length (h <$> text)
    /\ Forall2 same_but_geometry (h <$> text) (h' <$> text)
    /\ (forall l, same_but_geometry (h l) (h' l)).
Proof.
  destruct (fix_size_and_position_spec text h) as (h' & Hrun & Hin & Hout).
  assert (Hall : forall l, same_but_geometry (h l) (h' l)).
  { intros l. destruct (decide (l ∈ text)) as [Hl|Hl].
    - destruct (Hin l Hl) as (hgt & tp & _ & _ & ->). by repeat split.
    - rewrite Hout by done. by repeat split. }
  exists h'. split_and!; [done| by rewrite !length_fmap | | done].
  apply Forall2_fmap, Forall2_lookup. intros i.
  destruct (text !! i); constructor. apply Hall.
Qed.

(** C5.  Running [fix_size_and_position] twice gives every token the [top]
    and the [height] that running it once gives. *)
Theorem normalizer_idempotent (text : list loc) (h : heap) :
  exists h1 h2,
    fix_size_and_position text h = Ok h1
    /\ fix_size_and_position text h1 = Ok h2
    /\ forall l, top (h2 l) = top (h1 l) /\ height (h2 l) = height (h1 l).
Proof.
  destruct (fix_size_and_position_spec text h) as (h1 & Hrun1 & _).
  destruct (fix_size_and_position_spec text h1) as (h2 & Hrun2 & _).
  exists h1, h2. split_and!; [done..|].
  intros l. by rewrite (fix_size_and_position_twice text h h1 h2 Hrun1 Hrun2 l).
Qed.

(** C9 (as amended).  For every token list in which no token has a NaN top
    or height, and every token in it: after [fix_size_and_position] the
    token's height is greater than or equal to its height before the call
    and its top is less than or equal to its top before the call. *)
Theorem normalizer_grows_box (text : list loc) (h : heap) :
  no_nan_geometry text h = true ->
  exists h', fix_size_and_position text h = Ok h'
    /\ forall l, l ∈ text -> grows_vertically h h' l.
Proof.
  intros Hnan.
  destruct (fix_size_and_position_spec text h) as (h' & Hrun & Hin & Hout).
  exists h'. split; [done|]. intros l Hl.
  destruct (unified_extrema text h l _ Hnan (Hin l Hl)) as [[_ Hmax] [_ Hmin]].
  split.
  - apply Hmax. apply (list_elem_of_fmap_2 (fun i => height (h i))).
    by apply line_group_self.
  - apply Hmin. apply (list_elem_of_fmap_2 (fun i => top (h i))).
    by apply line_group_self.
Qed.

(** The end-to-end scenario of the specification: both tokens of line 1 end
    with height 14 and top 98, the token of line 2 keeps height 12 and top
    140. *)
Example normalizer_sample :
  exists h', fix_size_and_position [1; 2; 3]%positive sample_store = Ok h'
    /\ (fun l => (top (h' l), height (h' l))) <$> [1; 2; 3]%positive
       = [ (float_of_Z 98, float_of_Z 14); (float_of_Z 98, float_of_Z 14);
           (float_of_Z 140, float_of_Z 12) ].
Proof. eexists. split; [reflexivity|]. vm_compute. reflexivity. Qed.

Lemma normalizer_unifies_lines_witness :
  no_nan_geometry [1; 2; 3]%positive sample_store = true
  /\ exists h', fix_size_and_position [1; 2; 3]%positive sample_store = Ok h'
       /\ lines_unified [1; 2; 3]%positive sample_store h'
       /\ ([1; 2; 3]%positive = [] -> h' = sample_store).
Proof.
  split; [reflexivity|].
  apply (normalizer_unifies_lines [1; 2; 3]%positive sample_store). reflexivity.
Defined.

(** C1 as stated fails on a line that holds a NaN: the two tokens of
    [nan_store] are binary64 values on one line, the first with a NaN top and
    height; after the call both carry NaN, which is not [==] to itself and
    is not greater than or equal to the height 5 of the second token. *)
Lemma lines_unified_fails_on_nan :
  forallb (fun l => is_binary64 (top (nan_store l))
                    && is_binary64 (height (nan_store l))) [1; 2]%positive = true
  /\ ~ (exists h', fix_size_and_position [1; 2]%positive nan_store = Ok h'
          /\ lines_unified [1; 2]%positive nan_store h'
          /\ ([1; 2]%positive = [] -> h' = nan_store)).
Proof.
  split; [reflexivity|].
  intros (h' & Hrun & [Heq _] & _).
  injection Hrun as <-.
  destruct (Heq 1%positive 2%positive) as [Htop _]; [set_solver..|reflexivity|].
  vm_compute in Htop. discriminate.
Qed.

Lemma normalizer_grows_box_witness :
  no_nan_geometry [1; 2; 3]%positive sample_store = true
  /\ exists h', fix_size_and_position [1; 2; 3]%positive sample_store = Ok h'
       /\ forall l, l ∈ [1; 2; 3]%positive -> grows_vertically sample_store h' l.
Proof.
  split; [reflexivity|].
  apply (normalizer_grows_box [1; 2; 3]%positive sample_store). reflexivity.
Defined.

(** C9 as stated fails on a line that holds a NaN: the second token of
    [nan_store] has height 5 and top 98 before the call and NaN after it,
    and NaN is neither [>=] nor [<=] any number. *)
Lemma grows_box_fails_on_nan :
  forallb (fun l => is_binary64 (top (nan_store l))
                    && is_binary64 (height (nan_store l))) [1; 2]%positive = true
  /\ ~ (exists h', fix_size_and_position [1; 2]%positive nan_store = Ok h'
          /\ forall l, l ∈ [1; 2]%positive -> grows_vertically nan_store h' l).
Proof.
  split; [reflexivity|].
  intros (h' & Hrun & Hgrow).
  injection Hrun as <-.
  destruct (Hgrow 2%positive) as [Hh _]; [set_solver|].
  vm_compute in Hh. discriminate.
Qed.

(** ** The plain-text reducer *)

Lemma plain_text_walk (rest : list Text) (acc : list str) (prev : Z) :
  concat (fst (foldl plain_text_step (acc, Some prev) rest))
  = concat acc ++ reduce_walk prev rest.
Proof.
  revert acc prev. induction rest as [|t rest IH]; intros acc prev; simpl.
  - by rewrite app_nil_r.
  - destruct (decide (Some prev <> Some (line t))) as [Hne|Heq];
      rewrite IH, concat_app; simpl; rewrite app_nil_r, <- !app_assoc.
    + rewrite decide_True by congruence. done.
    + rewrite decide_False by (intros E; apply Heq; congruence).
      apply dec_stable in Heq. injection Heq as ->. done.
Qed.

(** The separator emitted before the first token is removed by the final
    [strip]. *)
Lemma strip_newline (s : str) : strip (newline ++ s) = strip s.
Proof. done. Qed.

(** C2.  [get_plain_text] returns exactly the string of the reference
    algorithm: the empty string for an empty list; otherwise the raw texts
    in order, with nothing before the first, a newline before each later
    token whose [line] differs from the previous token's [line] and a single
    space before the others, trimmed once at the end. *)
Theorem get_plain_text_reference (txt : list Text) :
  get_plain_text txt = reduceToText txt.
Proof.
  destruct txt as [|t rest]; [done|].
  unfold get_plain_text, reduceToText.
  rewrite decide_False by done.
  cbn [foldl plain_text_step]. rewrite decide_True by done.
  rewrite plain_text_walk. cbn [concat app]. rewrite app_nil_r.
  apply strip_newline.
Qed.

(** The line-break example of the specification. *)
Example get_plain_text_sample :
  get_plain_text (sample_store <$> [1; 2; 3]%positive)
  = u "Hello world" ++ newline ++ u "Foo".
Proof. reflexivity. Qed.

Example get_plain_text_empty : get_plain_text [] = u "".
Proof. reflexivity. Qed.

(** ** The range selector *)

Lemma index_elem (l : list loc) (x : loc) :
  x ∈ l -> exists i, index l x = Ok i /\ l !! i = Some x.
Proof.
  induction l as [|y l IH]; intros Hx; [by apply elem_of_nil in Hx|].
  simpl. destruct (decide (y = x)) as [->|Hne].
  - by exists 0%nat.
  - destruct IH as (i & -> & Hi); [set_solver|]. by exists (S i).
Qed.

Lemma index_not_elem (l : list loc) (x : loc) :
  x ∉ l -> index l x = Raise ValueError.
Proof.
  induction l as [|y l IH]; intros Hx; [done|].
  simpl. rewrite decide_False by set_solver. rewrite IH by set_solver. done.
Qed.

Lemma sorted2_min_max (a b : nat) : sorted2 a b = (a `min` b, a `max` b)%nat.
Proof. unfold sorted2. destruct (Nat.ltb_spec b a); f_equal; lia. Qed.

(** The comprehension over [enumerate] is the slice
    [items[start : stop + 1]]. *)
Lemma items_between_from (l : list loc) (n lo hi : nat) :
  omap (fun '(i, rect) =>
          if (lo <=? i)%nat && (i <=? hi)%nat then Some rect else None)
       (enumerate_from n l)
  = take (S hi - n - (lo - n)) (drop (lo - n) l).
Proof.
  revert n. induction l as [|x l IH]; intros n; csimpl.
  - by rewrite drop_nil, take_nil.
  - rewrite IH.
    destruct (Nat.leb_spec lo n), (Nat.leb_spec n hi); csimpl.
    + replace (lo - S n)%nat with 0%nat by lia.
      replace (lo - n)%nat with 0%nat by lia.
      by replace (S hi - n - 0)%nat with (S (hi - n - 0)) by lia.
    + replace (hi - n - (lo - S n))%nat with 0%nat by lia.
      by replace (S hi - n - (lo - n))%nat with 0%nat by lia.
    + replace (lo - n)%nat with (S (lo - S n)) by lia.
      by replace (S hi - n - S (lo - S n))%nat with (hi - n - (lo - S n))%nat by lia.
    + replace (lo - n)%nat with (S (lo - S n)) by lia.
      by replace (S hi - n - S (lo - S n))%nat with (hi - n - (lo - S n))%nat by lia.
Qed.

Lemma items_between_slice (items : list loc) (lo hi : nat) :
  items_between items lo hi = take (S hi - lo) (drop lo items).
Proof.
  unfold items_between. rewrite items_between_from. f_equal; [lia|f_equal; lia].
Qed.

Lemma filter_ext_elem (P Q : loc -> Prop)
    `{!forall x, Decision (P x), !forall x, Decision (Q x)} (l : list loc) :
  (forall x, x ∈ l -> P x <-> Q x) -> filter P l = filter Q l.
Proof.
  induction l as [|z l IH]; intros HPQ; [done|].
  rewrite !filter_cons, IH by set_solver.
  assert (Hz : P z <-> Q z) by (apply HPQ; set_solver).
  destruct (decide (P z)), (decide (Q z)); tauto || done.
Qed.

Lemma filter_superset (m p : list loc) :
  (forall x, x ∈ p -> x ∈ m) -> filter (fun x => x ∈ m) p = p.
Proof.
  induction p as [|z p IHp]; intros Hp; [done|].
  rewrite filter_cons_True by set_solver. f_equal. apply IHp. set_solver.
Qed.

(** A list without repetition, filtered by membership in one of its slices,
    is that slice. *)
Lemma filter_slice (l : list loc) (n k : nat) :
  NoDup l ->
  filter (fun x => x ∈ take n (drop k l)) l = take n (drop k l).
Proof.
  intros Hnd.
  rewrite <- (take_drop k l) at 1.
  rewrite <- (take_drop n (drop k l)) at 1.
  rewrite <- (take_drop k l), <- (take_drop n (drop k l)) in Hnd.
  apply NoDup_app in Hnd as (_ & Hd1 & Hnd).
  apply NoDup_app in Hnd as (_ & Hd2 & _).
  rewrite !filter_app.
  assert (E1 : filter (fun x => x ∈ take n (drop k l)) (take k l) = []).
  { apply elem_of_nil_inv. intros x [Hx Hin]%list_elem_of_filter.
    apply (Hd1 x Hin). set_solver. }
  assert (E3 : filter (fun x => x ∈ take n (drop k l)) (drop n (drop k l)) = []).
  { apply elem_of_nil_inv. intros x [Hx Hin]%list_elem_of_filter.
    by apply (Hd2 x Hx). }
  rewrite E1, E3, app_nil_r. simpl.
  apply filter_superset. set_solver.
Qed.

Lemma set_flags_lookup (range items : list loc) (selected : loc -> bool) (x : loc) :
  foldl (fun sel i => <[i := bool_decide (i ∈ range)]> sel) selected items x
  = if decide (x ∈ items) then bool_decide (x ∈ range) else selected x.
Proof.
  revert selected. induction items as [|i items IH]; intros selected; csimpl.
  - done.
  - rewrite IH. destruct (decide (x ∈ items)).
    + by rewrite decide_True by set_solver.
    + destruct (decide (x = i)) as [->|Hne].
      * by rewrite fn_lookup_insert, decide_True by set_solver.
      * by rewrite fn_lookup_insert_ne, decide_False by set_solver.
Qed.

(** ** Claims on the range selector *)

(** C3.  For two rectangle items [a], [b] of the list, with [lo] and [hi]
    the smaller and the larger of their positions: the selected range is the
    slice of the items at positions [lo <= i <= hi], in list order; it does
    not depend on the order in which [a] and [b] are given; for [a = b] it
    is the single item [a].  The flags the method sets mark the items of the
    range and, when the list has no repeated item, the flagged items of the
    list, in order, are exactly the range. *)
Theorem range_is_inclusive_slice (items : list loc) (a b : loc)
    (selected : loc -> bool) :
  a ∈ items -> b ∈ items ->
  exists ia ib range sel',
    index items a = Ok ia /\ index items b = Ok ib
    /\ range = take (S (ia `max` ib) - ia `min` ib) (drop (ia `min` ib) items)
    /\ textReactItemsRange items a b = Ok range
    /\ textReactItemsRange items b a = Ok range
    /\ textReactItemsRange items a a = Ok [a]
    /\ _setSelectedText items a b selected = Ok sel'
    /\ (forall x, x ∈ items -> sel' x = true <-> x ∈ range)
    /\ (NoDup items -> filter (fun x => sel' x = true) items = range).
Proof.
  intros Ha Hb.
  destruct (index_elem items a Ha) as (ia & Hia & Hla).
  destruct (index_elem items b Hb) as (ib & Hib & Hlb).
  set (range := take (S (ia `max` ib) - ia `min` ib) (drop (ia `min` ib) items)).
  assert (Hab : textReactItemsRange items a b = Ok range).
  { unfold textReactItemsRange. rewrite Hia, Hib. csimpl.
    by rewrite sorted2_min_max, items_between_slice. }
  exists ia, ib, range. eexists. split_and!; [done..| | | | |].
  - unfold textReactItemsRange. rewrite Hia, Hib. csimpl.
    rewrite sorted2_min_max, items_between_slice.
    by rewrite Nat.min_comm, Nat.max_comm.
  - unfold textReactItemsRange. rewrite Hia. csimpl.
    rewrite sorted2_min_max, items_between_slice, Nat.min_id, Nat.max_id.
    replace (S ia - ia)%nat with 1%nat by lia.
    rewrite (drop_S _ a ia Hla). done.
  - unfold _setSelectedText. rewrite Hab. csimpl. reflexivity.
  - intros x Hx. rewrite set_flags_lookup, decide_True by done.
    apply bool_decide_eq_true.
  - intros Hnd.
    transitivity (filter (fun x => x ∈ range) items); [|by apply filter_slice].
    apply filter_ext_elem. intros x Hx.
    rewrite set_flags_lookup, decide_True by done.
    apply bool_decide_eq_true.
Qed.

Lemma range_is_inclusive_slice_witness :
  (7 ∈ [5; 6; 7; 8])%positive /\ (6 ∈ [5; 6; 7; 8])%positive
  /\ exists ia ib range sel',
       index [5; 6; 7; 8]%positive 7%positive = Ok ia
       /\ index [5; 6; 7; 8]%positive 6%positive = Ok ib
       /\ range = take (S (ia `max` ib) - ia `min` ib)
                       (drop (ia `min` ib) [5; 6; 7; 8]%positive)
       /\ textReactItemsRange [5; 6; 7; 8]%positive 7%positive 6%positive = Ok range
       /\ textReactItemsRange [5; 6; 7; 8]%positive 6%positive 7%positive = Ok range
       /\ textReactItemsRange [5; 6; 7; 8]%positive 7%positive 7%positive
          = Ok [7%positive]
       /\ _setSelectedText [5; 6; 7; 8]%positive 7%positive 6%positive
            (fun _ => false) = Ok sel'
       /\ (forall x, x ∈ [5; 6; 7; 8]%positive -> sel' x = true <-> x ∈ range)
       /\ (NoDup [5; 6; 7; 8]%positive ->
           filter (fun x => sel' x = true) [5; 6; 7; 8]%positive = range).
Proof.
  assert (H7 : (7 ∈ [5; 6; 7; 8])%positive) by (apply (bool_decide_unpack _); vm_compute; exact I).
  assert (H6 : (6 ∈ [5; 6; 7; 8])%positive) by (apply (bool_decide_unpack _); vm_compute; exact I).
  split; [exact H7|]. split; [exact H6|].
  exact (range_is_inclusive_slice [5; 6; 7; 8]%positive 7%positive 6%positive
           (fun _ => false) H7 H6).
Defined.

(** The range of the end-to-end scenario: from the first to the third of
    three items, all three in order. *)
Example range_sample :
  textReactItemsRange [1; 2; 3]%positive 3%positive 1%positive
  = Ok [1; 2; 3]%positive.
Proof. reflexivity. Qed.

(** C7.  When either of the two given items is not in the list, the
    selector raises [ValueError] (the unknown-token error) and yields no
    range and no new flags; on an empty list it always does. *)
Theorem range_unknown_token (items : list loc) (a b : loc)
    (selected : loc -> bool) :
  a ∉ items \/ b ∉ items ->
  textReactItemsRange items a b = Raise ValueError
  /\ _setSelectedText items a b selected = Raise ValueError
  /\ textReactItemsRange [] a b = Raise ValueError
  /\ _setSelectedText [] a b selected = Raise ValueError.
Proof.
  intros Hab.
  assert (E : textReactItemsRange items a b = Raise ValueError).
  { unfold textReactItemsRange.
    destruct (decide (a ∈ items)) as [Ha|Ha].
    - destruct Hab as [Hna|Hnb]; [done|].
      destruct (index_elem items a Ha) as (ia & -> & _). csimpl.
      by rewrite (index_not_elem items b Hnb).
    - by rewrite (index_not_elem items a Ha). }
  split_and!; [done| |done..].
  unfold _setSelectedText. by rewrite E.
Qed.

Lemma range_unknown_token_witness :
  ((9 ∉ [5; 6; 7; 8])%positive \/ (6 ∉ [5; 6; 7; 8])%positive)
  /\ textReactItemsRange [5; 6; 7; 8]%positive 9%positive 6%positive
     = Raise ValueError
  /\ _setSelectedText [5; 6; 7; 8]%positive 9%positive 6%positive (fun _ => false)
     = Raise ValueError
  /\ textReactItemsRange [] 9%positive 6%positive = Raise ValueError
  /\ _setSelectedText [] 9%positive 6%positive (fun _ => false) = Raise ValueError.
Proof.
  assert (H9 : (9 ∉ [5; 6; 7; 8])%positive \/ (6 ∉ [5; 6; 7; 8])%positive)
    by (left; apply (bool_decide_unpack _); vm_compute; exact I).
  split; [exact H9|].
  exact (range_unknown_token [5; 6; 7; 8]%positive 9%positive 6%positive
           (fun _ => false) H9).
Defined.

(** ** Token construction *)

Section ConstructionProperties.
Variable py_int : str -> option Z.
Variable py_float : str -> option float.

Lemma int_field_cases (r : row) (k : str) :
  (exists s z, r !! k = Some s /\ py_int s = Some z /\ int_field py_int r k = Ok z
               /\ column_ok py_int r k = true)
  \/ (exists e, int_field py_int r k = Raise e /\ column_ok py_int r k = false).
Proof.
  unfold int_field, getitem, column_ok.
  destruct (r !! k) as [s|]; csimpl; [|by right; eexists].
  destruct (py_int s) as [z|] eqn:E; [|by right; eexists].
  left. exists s, z. by rewrite E.
Qed.

Lemma float_field_cases (r : row) (k : str) :
  (exists s x, r !! k = Some s /\ py_float s = Some x
               /\ float_field py_float r k = Ok x
               /\ column_ok py_float r k = true)
  \/ (exists e, float_field py_float r k = Raise e
                /\ column_ok py_float r k = false).
Proof.
  unfold float_field, getitem, column_ok.
  destruct (r !! k) as [s|]; csimpl; [|by right; eexists].
  destruct (py_float s) as [x|] eqn:E; [|by right; eexists].
  left. exists s, x. by rewrite E.
Qed.

Lemma getitem_cases (r : row) (k : str) :
  (exists s, r !! k = Some s /\ getitem r k = Ok s /\ column_ok Some r k = true)
  \/ (exists e, getitem r k = Raise e /\ column_ok Some r k = false).
Proof.
  unfold getitem, column_ok.
  destruct (r !! k) as [s|]; [by left; exists s|by right; eexists].
Qed.

Lemma columns_not_ok {A : Type} (conv : str -> option A) (r : row)
    (ks : list str) :
  forallb (column_ok conv r) ks = false
  <-> exists k, k ∈ ks
        /\ (r !! k = None \/ exists s, r !! k = Some s /\ conv s = None).
Proof.
  induction ks as [|k ks IH]; csimpl.
  - split; [done|]. by intros (k & []%elem_of_nil & _).
  - rewrite andb_false_iff, IH. unfold column_ok. split.
    + intros [Hk|(k' & Hin & Hk')]; [|exists k'; set_solver].
      exists k. split; [set_solver|].
      destruct (r !! k) as [s|]; [|by left].
      destruct (conv s) eqn:E; [done|]. right. by exists s.
    + intros (k' & [->|Hin]%elem_of_cons & Hk'); [|right; by exists k'].
      left. destruct Hk' as [->|(s & -> & ->)]; done.
Qed.

(** [well_formed] fails exactly on the records that are [malformed]. *)
Lemma well_formed_false (r : row) :
  well_formed py_int py_float r = false <-> malformed py_int py_float r.
Proof.
  unfold well_formed, malformed.
  rewrite !andb_false_iff, !columns_not_ok. split.
  - intros [[(k & Hin & [Hk|(s & Hk & Hs)])|(k & Hin & [Hk|(s & Hk & Hs)])]
           |(k & Hin & [Hk|(s & Hk & Hs)])].
    + left. exists k. set_solver.
    + right. left. by exists k, s.
    + left. exists k. set_solver.
    + right. right. by exists k, s.
    + left. exists k. set_solver.
    + done.
  - intros [(k & Hin & Hk)|[(k & s & Hin & Hk & Hs)|(k & s & Hin & Hk & Hs)]].
    + apply elem_of_app in Hin as [Hin|[Hin|Hin]%elem_of_app].
      * left. left. exists k. by split; [|left].
      * left. right. exists k. by split; [|left].
      * right. exists k. by split; [|left].
    + left. left. exists k. split; [done|]. right. by exists s.
    + left. right. exists k. split; [done|]. right. by exists s.
Qed.

(** The conversion of one column raised: so does [from_row]. *)
Local Ltac raises F :=
  let e := fresh "e" in
  destruct F as (e & -> & ->); right; exists e; split; reflexivity.

(** [from_row] either returns the typed reading of a well-formed record or
    raises on a record that is not well formed. *)
Lemma from_row_cases (r : row) :
  (exists t, from_row py_int py_float r = Ok t
             /\ typed_from py_int py_float r t
             /\ well_formed py_int py_float r = true)
  \/ (exists e, from_row py_int py_float r = Raise e
                /\ well_formed py_int py_float r = false).
Proof.
  unfold from_row, well_formed, typed_from, int_columns, float_columns,
    str_columns.
  cbn [forallb].
  destruct (int_field_cases r (u "level")) as [(? & ? & ? & ? & -> & ->)|F];
    [csimpl|raises F].
  destruct (int_field_cases r (u "page_num")) as [(? & ? & ? & ? & -> & ->)|F];
    [csimpl|raises F].
  destruct (int_field_cases r (u "block_num")) as [(? & ? & ? & ? & -> & ->)|F];
    [csimpl|raises F].
  destruct (int_field_cases r (u "par_num")) as [(? & ? & ? & ? & -> & ->)|F];
    [csimpl|raises F].
  destruct (int_field_cases r (u "line_num")) as [(? & ? & ? & ? & -> & ->)|F];
    [csimpl|raises F].
  destruct (int_field_cases r (u "word_num")) as [(? & ? & ? & ? & -> & ->)|F];
    [csimpl|raises F].
  destruct (float_field_cases r (u "left")) as [(? & ? & ? & ? & -> & ->)|F];
    [csimpl|raises F].
  destruct (float_field_cases r (u "top")) as [(? & ? & ? & ? & -> & ->)|F];
    [csimpl|raises F].
  destruct (float_field_cases r (u "width")) as [(? & ? & ? & ? & -> & ->)|F];
    [csimpl|raises F].
  destruct (float_field_cases r (u "height")) as [(? & ? & ? & ? & -> & ->)|F];
    [csimpl|raises F].
  destruct (getitem_cases r (u "conf")) as [(? & ? & -> & ->)|F];
    [csimpl|raises F].
  destruct (getitem_cases r (u "text")) as [(? & ? & -> & ->)|F];
    [csimpl|raises F].
  left. eexists. split; [reflexivity|]. split; [|reflexivity]. simpl.
  repeat match goal with H : r !! _ = Some _ |- _ => rewrite H; clear H end.
  csimpl. by repeat split.
Qed.

Lemma mapM_from_row_cons (r : row) (rows : list row) :
  mapM (from_row py_int py_float) (r :: rows)
  = t ← from_row py_int py_float r;
    ts ← mapM (from_row py_int py_float) rows;
    Ok (t :: ts).
Proof. done. Qed.

(** [get_text] converts every row, in order, and then filters: with
    [include_empty] every token is kept, without it the tokens whose text
    is not blank. *)
Lemma get_text_loop (rows : list row) (include_empty : bool) (acc : list Text) :
  for_each
    (fun acc r =>
       i ← from_row py_int py_float r;
       Ok (if include_empty || str_truthy (strip (text i))
           then acc ++ [i] else acc))
    acc rows
  = ts ← mapM (from_row py_int py_float) rows;
    Ok (acc ++ (if include_empty then ts else filter nonblank ts)).
Proof.
  revert acc. induction rows as [|r rows IH]; intros acc.
  - csimpl. destruct include_empty; by rewrite app_nil_r.
  - rewrite mapM_from_row_cons. cbn [for_each].
    destruct (from_row py_int py_float r) as [i|e]; csimpl; [|done].
    rewrite IH.
    destruct (mapM (from_row py_int py_float) rows) as [ts|e]; csimpl; [|done].
    f_equal. destruct include_empty; csimpl.
    + by rewrite <- app_assoc.
    + rewrite filter_cons.
      destruct (decide (nonblank i)) as [Hi|Hi]; unfold nonblank in Hi;
        destruct (strip (text i)); csimpl; try done.
      * by rewrite <- app_assoc.
      * by destruct Hi.
Qed.

Lemma mapM_from_row_raise (rows : list row) (r : row) :
  r ∈ rows -> well_formed py_int py_float r = false ->
  exists e, mapM (from_row py_int py_float) rows = Raise e.
Proof.
  intros Hr Hbad.
  induction rows as [|r' rows IH]; [by apply elem_of_nil in Hr|].
  rewrite mapM_from_row_cons.
  destruct (from_row_cases r') as [(t & -> & _ & Hok)|(e & -> & _)];
    [|by eexists].
  apply elem_of_cons in Hr as [->|Hr]; [congruence|].
  destruct (IH Hr) as (e & ->). by eexists.
Qed.

(** C6.  [from_row] raises (a [KeyError] for an absent column, a
    [ValueError] for a numeric column that is not a number) when the
    record is not well formed, and returns the typed token when it is; a
    batch that holds a record that is not well formed raises as a whole:
    [get_text] returns no token list. *)
Theorem from_row_malformed_record (r : row) :
  (malformed py_int py_float r ->
     (exists e, from_row py_int py_float r = Raise e)
     /\ forall rows include_empty, r ∈ rows ->
          exists e, get_text py_int py_float rows include_empty = Raise e)
  /\ (~ malformed py_int py_float r ->
       exists t, from_row py_int py_float r = Ok t
                 /\ typed_from py_int py_float r t).
Proof.
  rewrite <- well_formed_false.
  destruct (from_row_cases r) as [(t & Hrun & Hty & Hok)|(e & Hrun & Hbad)].
  - split; [congruence|]. intros _. by exists t.
  - split; [|congruence]. intros _. split; [by exists e|].
    intros rows include_empty Hr.
    destruct (mapM_from_row_raise rows r Hr Hbad) as (e' & He').
    exists e'. unfold get_text. by rewrite get_text_loop, He'.
Qed.

(** C8.  By default [get_text] drops every token whose text is empty
    after trimming and keeps all the others in source order; with
    [include_empty] it keeps every token. *)
Theorem get_text_filters_blank (rows : list row) :
  get_text py_int py_float rows false
  = (ts ← mapM (from_row py_int py_float) rows; Ok (filter nonblank ts))
  /\ get_text py_int py_float rows true
     = mapM (from_row py_int py_float) rows.
Proof.
  unfold get_text. rewrite !get_text_loop. split; [done|].
  by destruct (mapM (from_row py_int py_float) rows).
Qed.

(** C10.  [get_text] converts every row before it filters: a row that is
    not well formed makes the whole batch raise, whatever its text, also
    when the text is blank and the default filter would have dropped the
    token. *)
Theorem get_text_converts_before_filter (rows : list row) (r : row)
    (include_empty : bool) :
  r ∈ rows -> malformed py_int py_float r ->
  get_text py_int py_float rows include_empty
  = (ts ← mapM (from_row py_int py_float) rows;
     Ok (if include_empty then ts else filter nonblank ts))
  /\ exists e, get_text py_int py_float rows include_empty = Raise e.
Proof.
  intros Hr Hbad%well_formed_false.
  assert (E : get_text py_int py_float rows include_empty
              = (ts ← mapM (from_row py_int py_float) rows;
                 Ok (if include_empty then ts else filter nonblank ts))).
  { unfold get_text. by rewrite get_text_loop. }
  split; [done|].
  destruct (mapM_from_row_raise rows r Hr Hbad) as (e & He).
  exists e. by rewrite E, He.
Qed.
End ConstructionProperties.

Lemma get_text_converts_before_filter_witness :
  sample_row "x" "   " ∈ [sample_row "12" "Hello"; sample_row "x" "   "]
  /\ malformed int_of_decimal float_of_decimal (sample_row "x" "   ")
  /\ get_text int_of_decimal float_of_decimal
       [sample_row "12" "Hello"; sample_row "x" "   "] false
     = (ts ← mapM (from_row int_of_decimal float_of_decimal)
               [sample_row "12" "Hello"; sample_row "x" "   "];
        Ok (filter nonblank ts))
  /\ exists e, get_text int_of_decimal float_of_decimal
                 [sample_row "12" "Hello"; sample_row "x" "   "] false = Raise e.
Proof.
  assert (Hr : sample_row "x" "   "
               ∈ [sample_row "12" "Hello"; sample_row "x" "   "])
    by (right; left).
  assert (Hbad : malformed int_of_decimal float_of_decimal
                   (sample_row "x" "   "))
    by (apply well_formed_false; vm_compute; reflexivity).
  split; [exact Hr|]. split; [exact Hbad|].
  exact (get_text_converts_before_filter int_of_decimal float_of_decimal
           [sample_row "12" "Hello"; sample_row "x" "   "]
           (sample_row "x" "   ") false Hr Hbad).
Defined.

(** A record whose column [left] is not a number raises [ValueError], one
    without the column [top] raises [KeyError]; so does the batch. *)
Example from_row_sample_raises :
  from_row int_of_decimal float_of_decimal (sample_row "x" "Hello")
  = Raise ValueError
  /\ from_row int_of_decimal float_of_decimal
       (delete (u "top") (sample_row "12" "Hello"))
     = Raise (KeyError (u "top"))
  /\ get_text int_of_decimal float_of_decimal
       [sample_row "12" "Hello"; sample_row "x" "   "] true
     = Raise ValueError.
Proof. vm_compute. done. Qed.

(** The filtering example of the specification: a record with the text
    ["   "] is dropped by default and kept with [include_empty]. *)
Example get_text_sample :
  (exists ts, get_text int_of_decimal float_of_decimal
                [sample_row "1" "Hello"; sample_row "2" "   ";
                 sample_row "3" "Foo"] false = Ok ts
              /\ text <$> ts = [u "Hello"; u "Foo"])
  /\ (exists ts, get_text int_of_decimal float_of_decimal
                   [sample_row "1" "Hello"; sample_row "2" "   ";
                    sample_row "3" "Foo"] true = Ok ts
                 /\ text <$> ts = [u "Hello"; u "   "; u "Foo"]).
Proof. split; eexists; (split; [vm_compute; reflexivity|reflexivity]). Qed.

(** * Further properties of the code *)

(** ** Token construction *)

Section MoreConstruction.
Variable py_int : str -> option Z.
Variable py_float : str -> option float.

Lemma int_field_agree (r1 r2 : row) (k : str) :
  r1 !! k = r2 !! k -> int_field py_int r1 k = int_field py_int r2 k.
Proof. unfold int_field, getitem. by intros ->. Qed.

Lemma float_field_agree (r1 r2 : row) (k : str) :
  r1 !! k = r2 !! k -> float_field py_float r1 k = float_field py_float r2 k.
Proof. unfold float_field, getitem. by intros ->. Qed.

Lemma getitem_agree (r1 r2 : row) (k : str) :
  r1 !! k = r2 !! k -> getitem r1 k = getitem r2 k.
Proof. unfold getitem. by intros ->. Qed.

(** X1.  [Text.from_row] reads the twelve columns and nothing else: two
    records that agree on them give the same token or the same exception,
    so adding, changing or removing any other column changes nothing. *)
Theorem from_row_reads_columns (r1 r2 : row) :
  (forall k, k ∈ columns -> r1 !! k = r2 !! k) ->
  from_row py_int py_float r1 = from_row py_int py_float r2.
Proof.
  intros Hagree. unfold from_row.
  assert (Hi : forall k, k ∈ int_columns ->
             int_field py_int r1 k = int_field py_int r2 k).
  { intros k Hk. apply int_field_agree, Hagree. unfold columns. set_solver. }
  assert (Hf : forall k, k ∈ float_columns ->
             float_field py_float r1 k = float_field py_float r2 k).
  { intros k Hk. apply float_field_agree, Hagree. unfold columns. set_solver. }
  assert (Hs : forall k, k ∈ str_columns -> getitem r1 k = getitem r2 k).
  { intros k Hk. apply getitem_agree, Hagree. unfold columns. set_solver. }
  rewrite !Hi, !Hf, !Hs; [done|unfold int_columns, float_columns, str_columns..];
    set_solver.
Qed.

Lemma int_field_raise (r : row) (k : str) (e : exception) :
  int_field py_int r k = Raise e ->
  (e = KeyError k /\ r !! k = None)
  \/ (e = ValueError /\ exists s, r !! k = Some s /\ py_int s = None).
Proof.
  unfold int_field, getitem.
  destruct (r !! k) as [s|]; csimpl; [|intros [= <-]; by left].
  destruct (py_int s) eqn:E; [done|]. intros [= <-]. right. eauto.
Qed.

Lemma float_field_raise (r : row) (k : str) (e : exception) :
  float_field py_float r k = Raise e ->
  (e = KeyError k /\ r !! k = None)
  \/ (e = ValueError /\ exists s, r !! k = Some s /\ py_float s = None).
Proof.
  unfold float_field, getitem.
  destruct (r !! k) as [s|]; csimpl; [|intros [= <-]; by left].
  destruct (py_float s) eqn:E; [done|]. intros [= <-]. right. eauto.
Qed.

Lemma getitem_raise (r : row) (k : str) (e : exception) :
  getitem r k = Raise e -> e = KeyError k /\ r !! k = None.
Proof. unfold getitem. destruct (r !! k); [done|]. by intros [= <-]. Qed.

Lemma explains_int (r : row) (k : str) (e : exception) :
  k ∈ int_columns -> int_field py_int r k = Raise e ->
  explains py_int py_float r e.
Proof.
  intros Hk [[-> Hr]|[-> (s & Hr & Hs)]]%int_field_raise; simpl.
  - split; [unfold columns; set_solver|done].
  - left. eauto.
Qed.

Lemma explains_float (r : row) (k : str) (e : exception) :
  k ∈ float_columns -> float_field py_float r k = Raise e ->
  explains py_int py_float r e.
Proof.
  intros Hk [[-> Hr]|[-> (s & Hr & Hs)]]%float_field_raise; simpl.
  - split; [unfold columns; set_solver|done].
  - right. eauto.
Qed.

Lemma explains_str (r : row) (k : str) (e : exception) :
  k ∈ str_columns -> getitem r k = Raise e -> explains py_int py_float r e.
Proof.
  intros Hk [-> Hr]%getitem_raise; simpl.
  split; [unfold columns; set_solver|done].
Qed.

(** One column of [from_row]: either it raised, which explains the
    exception, or the conversion goes on. *)
Local Ltac column lem :=
  lazymatch goal with
  | |- (?m ≫= _) = Raise _ -> _ =>
      let E := fresh "E" in
      destruct m eqn:E; csimpl;
      [|intros [= <-]; eapply lem; [|exact E];
        unfold int_columns, float_columns, str_columns; set_solver]
  end.

(** X2.  The exception [Text.from_row] raises tells what is wrong with the
    record: a [KeyError] carries the name of one of the twelve columns, and
    the record has no such column; a [ValueError] means that some column
    read with [int] or [float] is present with a value that is not a
    number. *)
Theorem from_row_exception_explains (r : row) (e : exception) :
  from_row py_int py_float r = Raise e -> explains py_int py_float r e.
Proof.
  unfold from_row.
  do 6 column explains_int. do 4 column explains_float.
  do 2 column explains_str. done.
Qed.

Lemma get_text_mapM (rows : list row) (include_empty : bool) :
  get_text py_int py_float rows include_empty
  = ts ← mapM (from_row py_int py_float) rows;
    Ok (if include_empty then ts else filter nonblank ts).
Proof. unfold get_text. by rewrite get_text_loop. Qed.

Lemma not_malformed_ok (r : row) :
  ~ malformed py_int py_float r ->
  exists t, from_row py_int py_float r = Ok t /\ typed_from py_int py_float r t.
Proof.
  intros Hr.
  destruct (from_row_cases py_int py_float r)
    as [(t & Hrun & Hty & _)|(e & _ & Hbad)]; [by exists t|].
  by apply well_formed_false in Hbad.
Qed.

Lemma mapM_from_row_first_raise (pre post : list row) (r : row) (e : exception) :
  Forall (fun r' => ~ malformed py_int py_float r') pre ->
  from_row py_int py_float r = Raise e ->
  mapM (from_row py_int py_float) (pre ++ r :: post) = Raise e.
Proof.
  intros Hpre Hr. induction Hpre as [|r' pre Hr' _ IH].
  - rewrite app_nil_l, mapM_from_row_cons, Hr. done.
  - rewrite <- app_comm_cons, mapM_from_row_cons.
    destruct (not_malformed_ok r' Hr') as (t & -> & _). by rewrite IH.
Qed.

Lemma mapM_from_row_outcome (rows : list row) :
  match mapM (from_row py_int py_float) rows with
  | Ok ts => Forall2 (typed_from py_int py_float) rows ts
  | Raise e =>
      exists pre r post,
        rows = pre ++ r :: post
        /\ Forall (fun r' => ~ malformed py_int py_float r') pre
        /\ from_row py_int py_float r = Raise e
  end.
Proof.
  induction rows as [|r rows IH]; [by constructor|].
  rewrite mapM_from_row_cons.
  destruct (from_row_cases py_int py_float r)
    as [(t & Hrun & Hty & Hok)|(e & Hrun & Hbad)]; rewrite Hrun; csimpl.
  - destruct (mapM (from_row py_int py_float) rows) as [ts|e]; csimpl.
    + by constructor.
    + destruct IH as (pre & r' & post & -> & Hpre & Hr').
      exists (r :: pre), r', post. split_and!; [done| |done].
      constructor; [|done]. rewrite <- well_formed_false. congruence.
  - exists [], r, rows. by split_and!.
Qed.

(** X3.  A batch raises the exception of its first malformed record: when
    the records before [r] are not malformed and [Text.from_row] raises [e]
    on [r], [get_text] raises [e], whatever follows [r] and with or without
    [include_empty]. *)
Theorem get_text_first_malformed (pre post : list row) (r : row)
    (e : exception) (include_empty : bool) :
  Forall (fun r' => ~ malformed py_int py_float r') pre ->
  from_row py_int py_float r = Raise e ->
  get_text py_int py_float (pre ++ r :: post) include_empty = Raise e.
Proof.
  intros Hpre Hr.
  by rewrite get_text_mapM, (mapM_from_row_first_raise pre post r e).
Qed.

(** X4.  The two outcomes of [get_text].  When it returns, there is one
    token per record, in record order, each the typed reading of its
    record, and the result is all of them with [include_empty] and those
    with a non-blank text without it.  When it raises, the exception is the
    one [Text.from_row] raises on the first malformed record. *)
Theorem get_text_outcome (rows : list row) (include_empty : bool) :
  match get_text py_int py_float rows include_empty with
  | Ok ts =>
      exists every,
        Forall2 (typed_from py_int py_float) rows every
        /\ ts = (if include_empty then every else filter nonblank every)
  | Raise e =>
      exists pre r post,
        rows = pre ++ r :: post
        /\ Forall (fun r' => ~ malformed py_int py_float r') pre
        /\ from_row py_int py_float r = Raise e
  end.
Proof.
  rewrite get_text_mapM.
  pose proof (mapM_from_row_outcome rows) as H.
  destruct (mapM (from_row py_int py_float) rows) as [every|e]; csimpl; [|done].
  by exists every.
Qed.
End MoreConstruction.

Lemma from_row_reads_columns_witness :
  (forall k, k ∈ columns ->
     <[u "note" := u "x"]> (sample_row "12" "Hello") !! k
     = sample_row "12" "Hello" !! k)
  /\ from_row int_of_decimal float_of_decimal
       (<[u "note" := u "x"]> (sample_row "12" "Hello"))
     = from_row int_of_decimal float_of_decimal (sample_row "12" "Hello").
Proof.
  assert (H : forall k, k ∈ columns ->
            <[u "note" := u "x"]> (sample_row "12" "Hello") !! k
            = sample_row "12" "Hello" !! k).
  { intros k Hk. apply lookup_insert_ne. intros <-.
    revert Hk. apply (bool_decide_unpack _). vm_compute. exact I. }
  split; [exact H|].
  exact (from_row_reads_columns int_of_decimal float_of_decimal _ _ H).
Defined.

Lemma from_row_exception_explains_witness :
  from_row int_of_decimal float_of_decimal
    (delete (u "top") (sample_row "12" "Hello")) = Raise (KeyError (u "top"))
  /\ explains int_of_decimal float_of_decimal
       (delete (u "top") (sample_row "12" "Hello")) (KeyError (u "top")).
Proof.
  assert (H : from_row int_of_decimal float_of_decimal
                (delete (u "top") (sample_row "12" "Hello"))
              = Raise (KeyError (u "top"))) by (vm_compute; reflexivity).
  split; [exact H|].
  exact (from_row_exception_explains int_of_decimal float_of_decimal _ _ H).
Defined.

Lemma get_text_first_malformed_witness :
  Forall (fun r' => ~ malformed int_of_decimal float_of_decimal r')
    [sample_row "12" "Hello"]
  /\ from_row int_of_decimal float_of_decimal (sample_row "x" "   ")
     = Raise ValueError
  /\ get_text int_of_decimal float_of_decimal
       ([sample_row "12" "Hello"]
        ++ sample_row "x" "   " :: [delete (u "top") (sample_row "1" "Foo")])
       false
     = Raise ValueError.
Proof.
  assert (H1 : Forall (fun r' => ~ malformed int_of_decimal float_of_decimal r')
                 [sample_row "12" "Hello"]).
  { constructor; [|constructor]. rewrite <- well_formed_false.
    vm_compute. discriminate. }
  assert (H2 : from_row int_of_decimal float_of_decimal (sample_row "x" "   ")
               = Raise ValueError) by (vm_compute; reflexivity).
  split; [exact H1|]. split; [exact H2|].
  exact (get_text_first_malformed int_of_decimal float_of_decimal _ _ _ _ false
           H1 H2).
Defined.

(** ** The line normalizer *)

Lemma float_le_antisym (x y : float) :
  float_le x y = true -> float_le y x = true -> float_eq x y = true.
Proof.
  unfold float_le, float_eq, SFleb, SFeqb.
  destruct x as [sx|sx| |sx mx ex], y as [sy|sy| |sy my ey];
    try destruct sx; try destruct sy;
    rewrite ?SFcompare_finite_pos, ?SFcompare_finite_neg;
    try (simpl; congruence).
  all: cmp_cases; subst; simpl; try congruence; try lia.
Qed.

Lemma set_geometry_same (t : Text) :
  set_top (set_height t (height t)) (top t) = t.
Proof. by destruct t. Qed.

Lemma unified_elem (text : list loc) (h : heap) (l : loc) (t : Text) :
  unified text h l t ->
  height t ∈ (fun i => height (h i)) <$> line_group text h l
  /\ top t ∈ (fun i => top (h i)) <$> line_group text h l.
Proof.
  intros (hgt & tp & Hmax & Hmin & ->). simpl. split.
  - destruct (py_max_nonempty ((fun i => height (h i)) <$> line_group text h l))
      as (m & Hm & Hin); [by intros E; rewrite E in Hmax|].
    rewrite Hmax in Hm. by injection Hm as <-.
  - destruct (py_min_nonempty ((fun i => top (h i)) <$> line_group text h l))
      as (m & Hm & Hin); [by intros E; rewrite E in Hmin|].
    rewrite Hmin in Hm. by injection Hm as <-.
Qed.

(** X5.  [fix_size_and_position] modifies the objects of its list only:
    every other object of the store is exactly as before. *)
Theorem normalizer_outside_untouched (text : list loc) (h : heap) :
  exists h', fix_size_and_position text h = Ok h'
    /\ forall l, l ∉ text -> h' l = h l.
Proof.
  destruct (fix_size_and_position_spec text h) as (h' & Hrun & _ & Hout).
  by exists h'.
Qed.

(** X6.  [fix_size_and_position] invents no value: the height a token ends
    with is the height some token of its line had before the call, and its
    top is the top some token of its line had, NaN or not. *)
Theorem normalizer_selects (text : list loc) (h : heap) :
  exists h', fix_size_and_position text h = Ok h'
    /\ forall l, l ∈ text ->
         (exists l1, l1 ∈ line_group text h l /\ height (h' l) = height (h l1))
         /\ (exists l2, l2 ∈ line_group text h l /\ top (h' l) = top (h l2)).
Proof.
  destruct (fix_size_and_position_spec text h) as (h' & Hrun & Hin & _).
  exists h'. split; [done|]. intros l Hl.
  destruct (unified_elem text h l _ (Hin l Hl))
    as [(l1 & E1 & H1)%list_elem_of_fmap (l2 & E2 & H2)%list_elem_of_fmap].
  split; [by exists l1|by exists l2].
Qed.

(** X7.  A line whose tokens already share one height and one top is left
    as it is; in particular a token alone on its line is not changed. *)
Theorem normalizer_fixes_unified_line (text : list loc) (h : heap) (l : loc) :
  l ∈ text ->
  (forall l', l' ∈ line_group text h l ->
     height (h l') = height (h l) /\ top (h l') = top (h l)) ->
  exists h', fix_size_and_position text h = Ok h' /\ h' l = h l.
Proof.
  intros Hl Hsame.
  destruct (fix_size_and_position_spec text h) as (h' & Hrun & Hin & _).
  exists h'. split; [done|].
  destruct (Hin l Hl) as (hgt & tp & Hmax & Hmin & ->).
  assert (Hne : (fun i : loc => height (h i)) <$> line_group text h l <> []
                /\ (fun i : loc => top (h i)) <$> line_group text h l <> []).
  { pose proof (line_group_self text h l Hl) as Hself.
    destruct (line_group text h l); [by apply elem_of_nil in Hself|done]. }
  rewrite (py_max_const _ (height (h l))) in Hmax; [|apply Hne|].
  - rewrite (py_min_const _ (top (h l))) in Hmin; [|apply Hne|].
    + injection Hmax as <-. injection Hmin as <-. apply set_geometry_same.
    + intros y (l' & -> & Hl')%list_elem_of_fmap. by apply Hsame.
  - intros y (l' & -> & Hl')%list_elem_of_fmap. by apply Hsame.
Qed.

Lemma normalizer_fixes_unified_line_witness :
  (3 ∈ [1; 2; 3])%positive
  /\ (forall l', l' ∈ line_group [1; 2; 3]%positive sample_store 3%positive ->
        height (sample_store l') = height (sample_store 3%positive)
        /\ top (sample_store l') = top (sample_store 3%positive))
  /\ exists h', fix_size_and_position [1; 2; 3]%positive sample_store = Ok h'
       /\ h' 3%positive = sample_store 3%positive.
Proof.
  assert (H3 : (3 ∈ [1; 2; 3])%positive)
    by (apply (bool_decide_unpack _); vm_compute; exact I).
  assert (Hs : forall l', l' ∈ line_group [1; 2; 3]%positive sample_store 3%positive ->
             height (sample_store l') = height (sample_store 3%positive)
             /\ top (sample_store l') = top (sample_store 3%positive)).
  { intros l' Hl'. vm_compute in Hl'.
    apply list_elem_of_singleton in Hl' as ->. split; reflexivity. }
  split; [exact H3|]. split; [exact Hs|].
  exact (normalizer_fixes_unified_line [1; 2; 3]%positive sample_store 3%positive
           H3 Hs).
Defined.

Lemma line_group_of_line_group (text : list loc) (h : heap) (l : loc) :
  line_group (line_group text h l) h l = line_group text h l.
Proof.
  unfold line_group, with_key. rewrite list_filter_filter.
  apply list_filter_iff. tauto.
Qed.

(** X8.  The lines are normalized independently: a token gets the same
    geometry when only the tokens of its own line are passed to
    [fix_size_and_position]. *)
Theorem normalizer_line_by_line (text : list loc) (h : heap) (l : loc) :
  l ∈ text ->
  exists h1 h2,
    fix_size_and_position text h = Ok h1
    /\ fix_size_and_position (line_group text h l) h = Ok h2
    /\ h2 l = h1 l.
Proof.
  intros Hl.
  destruct (fix_size_and_position_spec text h) as (h1 & Hrun1 & Hin1 & _).
  destruct (fix_size_and_position_spec (line_group text h l) h)
    as (h2 & Hrun2 & Hin2 & _).
  exists h1, h2. split_and!; [done..|].
  destruct (Hin1 l Hl) as (hgt & tp & Hmax & Hmin & ->).
  destruct (Hin2 l (line_group_self text h l Hl))
    as (hgt' & tp' & Hmax' & Hmin' & ->).
  rewrite line_group_of_line_group in Hmax', Hmin'.
  rewrite Hmax in Hmax'. rewrite Hmin in Hmin'.
  injection Hmax' as <-. injection Hmin' as <-. done.
Qed.

Lemma normalizer_line_by_line_witness :
  (1 ∈ [1; 2; 3])%positive
  /\ exists h1 h2,
       fix_size_and_position [1; 2; 3]%positive sample_store = Ok h1
       /\ fix_size_and_position
            (line_group [1; 2; 3]%positive sample_store 1%positive) sample_store
          = Ok h2
       /\ h2 1%positive = h1 1%positive.
Proof.
  assert (H1 : (1 ∈ [1; 2; 3])%positive)
    by (apply (bool_decide_unpack _); vm_compute; exact I).
  split; [exact H1|].
  exact (normalizer_line_by_line [1; 2; 3]%positive sample_store 1%positive H1).
Defined.

Lemma no_nan_geometry_intro (text : list loc) (h : heap) :
  (forall l, l ∈ text ->
     is_nan (top (h l)) = false /\ is_nan (height (h l)) = false) ->
  no_nan_geometry text h = true.
Proof.
  intros Hall. unfold no_nan_geometry. apply forallb_forall.
  intros l Hl%list_elem_of_In. destruct (Hall l Hl) as [-> ->]. done.
Qed.

(** X9.  [fix_size_and_position] brings in no NaN: when no token of the
    list has a NaN top or height before the call, none has one after it. *)
Theorem normalizer_keeps_nan_free (text : list loc) (h : heap) :
  no_nan_geometry text h = true ->
  exists h', fix_size_and_position text h = Ok h'
    /\ no_nan_geometry text h' = true.
Proof.
  intros Hnan.
  destruct (fix_size_and_position_spec text h) as (h' & Hrun & Hin & _).
  exists h'. split; [done|]. apply no_nan_geometry_intro. intros l Hl.
  destruct (unified_elem text h l _ (Hin l Hl))
    as [(l1 & -> & [_ H1]%elem_of_line_group)%list_elem_of_fmap
        (l2 & -> & [_ H2]%elem_of_line_group)%list_elem_of_fmap].
  split.
  - by apply (no_nan_geometry_elem text h l2 Hnan).
  - by apply (no_nan_geometry_elem text h l1 Hnan).
Qed.

Lemma normalizer_keeps_nan_free_witness :
  no_nan_geometry [1; 2; 3]%positive sample_store = true
  /\ exists h', fix_size_and_position [1; 2; 3]%positive sample_store = Ok h'
       /\ no_nan_geometry [1; 2; 3]%positive h' = true.
Proof.
  split; [reflexivity|].
  apply (normalizer_keeps_nan_free [1; 2; 3]%positive sample_store). reflexivity.
Defined.

Lemma line_group_Permutation (text text' : list loc) (h : heap) (l : loc) :
  text ≡ₚ text' -> line_group text h l ≡ₚ line_group text' h l.
Proof. intros Hp. unfold line_group, with_key. by rewrite Hp. Qed.

Lemma is_maximum_Permutation (m m' : float) (xs xs' : list float) :
  xs ≡ₚ xs' -> is_maximum m xs -> is_maximum m' xs' -> float_eq m m' = true.
Proof.
  intros Hp [Hin Hub] [Hin' Hub'].
  apply float_le_antisym.
  - apply Hub'. by rewrite <- Hp.
  - apply Hub. by rewrite Hp.
Qed.

Lemma is_minimum_Permutation (m m' : float) (xs xs' : list float) :
  xs ≡ₚ xs' -> is_minimum m xs -> is_minimum m' xs' -> float_eq m m' = true.
Proof.
  intros Hp [Hin Hlb] [Hin' Hlb'].
  apply float_le_antisym.
  - apply Hlb. by rewrite Hp.
  - apply Hlb'. by rewrite <- Hp.
Qed.

(** X10.  The order of the list does not matter: for a list without NaN
    top or height, [fix_size_and_position] on any rearrangement of the list
    gives every token a height and a top that are [==] to those it gets
    from the list itself. *)
Theorem normalizer_order_free (text text' : list loc) (h : heap) :
  text ≡ₚ text' -> no_nan_geometry text h = true ->
  exists h1 h2,
    fix_size_and_position text h = Ok h1
    /\ fix_size_and_position text' h = Ok h2
    /\ forall l, l ∈ text ->
         float_eq (height (h1 l)) (height (h2 l)) = true
         /\ float_eq (top (h1 l)) (top (h2 l)) = true.
Proof.
  intros Hp Hnan.
  assert (Hnan' : no_nan_geometry text' h = true).
  { apply no_nan_geometry_intro. intros l Hl.
    apply (no_nan_geometry_elem text h l Hnan). by rewrite Hp. }
  destruct (fix_size_and_position_spec text h) as (h1 & Hrun1 & Hin1 & _).
  destruct (fix_size_and_position_spec text' h) as (h2 & Hrun2 & Hin2 & _).
  exists h1, h2. split_and!; [done..|]. intros l Hl.
  assert (Hl' : l ∈ text') by (by rewrite <- Hp).
  destruct (unified_extrema text h l _ Hnan (Hin1 l Hl)) as [Hmax Hmin].
  destruct (unified_extrema text' h l _ Hnan' (Hin2 l Hl')) as [Hmax' Hmin'].
  pose proof (line_group_Permutation text text' h l Hp) as Hg.
  split.
  - eapply is_maximum_Permutation; [|exact Hmax|exact Hmax']. by rewrite Hg.
  - eapply is_minimum_Permutation; [|exact Hmin|exact Hmin']. by rewrite Hg.
Qed.

Lemma normalizer_order_free_witness :
  [1; 2; 3]%positive ≡ₚ [3; 2; 1]%positive
  /\ no_nan_geometry [1; 2; 3]%positive sample_store = true
  /\ exists h1 h2,
       fix_size_and_position [1; 2; 3]%positive sample_store = Ok h1
       /\ fix_size_and_position [3; 2; 1]%positive sample_store = Ok h2
       /\ forall l, l ∈ [1; 2; 3]%positive ->
            float_eq (height (h1 l)) (height (h2 l)) = true
            /\ float_eq (top (h1 l)) (top (h2 l)) = true.
Proof.
  assert (Hp : [1; 2; 3]%positive ≡ₚ [3; 2; 1]%positive)
    by (apply (bool_decide_unpack _); vm_compute; exact I).
  split; [exact Hp|]. split; [reflexivity|].
  exact (normalizer_order_free [1; 2; 3]%positive [3; 2; 1]%positive sample_store
           Hp eq_refl).
Defined.

(** ** The plain-text reducer *)

Lemma lstrip_head (s : str) (c : N) :
  head (lstrip s) = Some c -> isspace c = false.
Proof.
  induction s as [|a s IH]; [done|]. simpl.
  destruct (isspace a) eqn:E; [done|]. by intros [= <-].
Qed.

Lemma lstrip_nil (s : str) : lstrip s = [] <-> forallb isspace s = true.
Proof.
  induction s as [|a s IH]; [done|]. simpl.
  destruct (isspace a); [done|]. split; discriminate.
Qed.

Lemma lstrip_snoc (s : str) (c : N) :
  isspace c = false -> lstrip (s ++ [c]) = lstrip s ++ [c].
Proof.
  intros Hc. induction s as [|a s IH]; simpl; [by rewrite Hc|].
  by destruct (isspace a).
Qed.

Lemma forallb_isspace_rev (s : str) :
  forallb isspace (rev s) = forallb isspace s.
Proof.
  induction s as [|a s IH]; [done|]. simpl.
  rewrite forallb_app, IH. simpl. rewrite andb_true_r. apply andb_comm.
Qed.

Lemma lstrip_forallb (s : str) :
  forallb isspace (lstrip s) = true -> forallb isspace s = true.
Proof.
  induction s as [|a s IH]; [done|]. simpl.
  destruct (isspace a) eqn:E; [done|]. simpl. by rewrite E.
Qed.

Lemma last_rev_head (s : str) : last (rev s) = head s.
Proof. destruct s as [|a s]; [done|]. simpl. apply last_snoc. Qed.

(** [strip] returns the empty string exactly on strings of white space. *)
Lemma strip_nil (s : str) : strip s = [] <-> forallb isspace s = true.
Proof.
  unfold strip, rstrip. split.
  - intros E. apply (f_equal (@rev N)) in E. rewrite rev_involutive in E.
    simpl in E.
    apply lstrip_nil in E. rewrite forallb_isspace_rev in E.
    by apply lstrip_forallb.
  - intros Hs. apply lstrip_nil in Hs. by rewrite Hs.
Qed.

(** The first and the last character of [strip s] are not white space. *)
Lemma strip_trimmed (s : str) (c : N) :
  head (strip s) = Some c \/ last (strip s) = Some c -> isspace c = false.
Proof.
  unfold strip, rstrip. intros [Hc|Hc].
  - destruct (lstrip s) as [|a s'] eqn:E; [done|].
    assert (Ha : isspace a = false) by (apply (lstrip_head s); by rewrite E).
    simpl in Hc. rewrite (lstrip_snoc _ _ Ha), rev_app_distr in Hc.
    by injection Hc as <-.
  - rewrite last_rev_head in Hc. by apply lstrip_head in Hc.
Qed.

(** X11.  The string [get_plain_text] returns neither starts nor ends with
    white space. *)
Theorem get_plain_text_trimmed (txt : list Text) (c : N) :
  head (get_plain_text txt) = Some c \/ last (get_plain_text txt) = Some c ->
  isspace c = false.
Proof.
  unfold get_plain_text. destruct (decide (length txt = 0%nat)).
  - by intros [|].
  - apply strip_trimmed.
Qed.

Lemma get_plain_text_trimmed_witness :
  (head (get_plain_text (sample_store <$> [1; 2; 3]%positive)) = Some 72%N
   \/ last (get_plain_text (sample_store <$> [1; 2; 3]%positive)) = Some 72%N)
  /\ isspace 72 = false.
Proof.
  assert (H : head (get_plain_text (sample_store <$> [1; 2; 3]%positive))
              = Some 72%N
              \/ last (get_plain_text (sample_store <$> [1; 2; 3]%positive))
                 = Some 72%N) by (left; vm_compute; reflexivity).
  split; [exact H|].
  exact (get_plain_text_trimmed (sample_store <$> [1; 2; 3]%positive) 72%N H).
Defined.

Lemma plain_text_step_reads (st : list str * option Z) (t t' : Text) :
  line t = line t' -> text t = text t' ->
  plain_text_step st t = plain_text_step st t'.
Proof. intros Hl Ht. unfold plain_text_step. by rewrite Hl, Ht. Qed.

Lemma plain_text_fold_reads (txt txt' : list Text) (st : list str * option Z) :
  Forall2 (fun t t' => line t = line t' /\ text t = text t') txt txt' ->
  foldl plain_text_step st txt = foldl plain_text_step st txt'.
Proof.
  intros Hagree. revert st.
  induction Hagree as [|t t' txt txt' [Hl Ht] _ IH]; intros st; [done|].
  cbn [foldl]. by rewrite (plain_text_step_reads st t t' Hl Ht), IH.
Qed.

(** X12.  [get_plain_text] reads the [line] and the [text] of the tokens and
    nothing else: two lists whose tokens agree on these two fields, position
    by position, give the same string, whatever their pages, blocks,
    paragraphs and geometry. *)
Theorem get_plain_text_reads_line_and_text (txt txt' : list Text) :
  Forall2 (fun t t' => line t = line t' /\ text t = text t') txt txt' ->
  get_plain_text txt = get_plain_text txt'.
Proof.
  intros Hagree. unfold get_plain_text.
  rewrite (Forall2_length _ _ _ Hagree).
  by rewrite (plain_text_fold_reads txt txt' _ Hagree).
Qed.

Lemma get_plain_text_reads_line_and_text_witness :
  Forall2 (fun t t' => line t = line t' /\ text t = text t')
    (sample_store <$> [1; 2]%positive) (nan_store <$> [1; 2]%positive)
  /\ get_plain_text (sample_store <$> [1; 2]%positive)
     = get_plain_text (nan_store <$> [1; 2]%positive).
Proof.
  assert (H : Forall2 (fun t t' => line t = line t' /\ text t = text t')
                (sample_store <$> [1; 2]%positive)
                (nan_store <$> [1; 2]%positive))
    by (repeat constructor).
  split; [exact H|].
  exact (get_plain_text_reads_line_and_text _ _ H).
Defined.

Lemma get_plain_text_cons (t : Text) (rest : list Text) :
  get_plain_text (t :: rest)
  = strip (newline ++ text t ++ reduce_walk (line t) rest).
Proof.
  unfold get_plain_text. rewrite decide_False by done.
  cbn [foldl plain_text_step]. rewrite decide_True by done.
  rewrite plain_text_walk. cbn [concat app]. by rewrite app_nil_r.
Qed.

Lemma reduce_walk_blank (prev : Z) (rest : list Text) :
  forallb isspace (reduce_walk prev rest) = true
  <-> Forall (fun t => strip (text t) = []) rest.
Proof.
  revert prev. induction rest as [|t rest IH]; intros prev; simpl.
  - split; [constructor|done].
  - rewrite !forallb_app, !andb_true_iff, IH, Forall_cons, strip_nil.
    destruct (decide (line t <> prev)); simpl; tauto.
Qed.

(** X13.  [get_plain_text] returns the empty string exactly when the text of
    every token is empty or white space only (which includes the empty
    list). *)
Theorem get_plain_text_empty_iff (txt : list Text) :
  get_plain_text txt = [] <-> Forall (fun t => strip (text t) = []) txt.
Proof.
  destruct txt as [|t rest]; [split; [constructor|done]|].
  rewrite get_plain_text_cons, strip_nil, Forall_cons.
  rewrite !forallb_app, !andb_true_iff, reduce_walk_blank, strip_nil.
  simpl. tauto.
Qed.

Section DefaultTokens.
Variable py_int : str -> option Z.
Variable py_float : str -> option float.

(** X14.  [get_text] and [get_plain_text] together: a non-empty selection
    among the tokens that [get_text] returns by default is never reduced to
    the empty string. *)
Theorem default_selection_has_text (rows : list row) (ts sel : list Text) :
  get_text py_int py_float rows false = Ok ts ->
  sel ⊆ ts -> sel <> [] ->
  get_plain_text sel <> [].
Proof.
  rewrite get_text_mapM. intros Hts Hsub Hne.
  destruct (mapM (from_row py_int py_float) rows) as [every|e]; [|done].
  injection Hts as <-.
  destruct sel as [|t rest]; [done|].
  assert (Ht : nonblank t).
  { assert (Hin : t ∈ filter nonblank every) by (apply Hsub; set_solver).
    by apply list_elem_of_filter in Hin as [? _]. }
  rewrite get_plain_text_cons. intros E%strip_nil.
  rewrite !forallb_app, !andb_true_iff in E.
  destruct E as (_ & E%strip_nil & _). done.
Qed.
End DefaultTokens.

Lemma default_selection_has_text_witness :
  get_text int_of_decimal float_of_decimal sample_rows false = Ok sample_tokens
  /\ sample_tokens ⊆ sample_tokens /\ sample_tokens <> []
  /\ get_plain_text sample_tokens <> [].
Proof.
  assert (H1 : get_text int_of_decimal float_of_decimal sample_rows false
               = Ok sample_tokens) by (vm_compute; reflexivity).
  assert (H2 : sample_tokens ⊆ sample_tokens) by reflexivity.
  assert (H3 : sample_tokens <> []) by (vm_compute; discriminate).
  split; [exact H1|]. split; [exact H2|]. split; [exact H3|].
  exact (default_selection_has_text int_of_decimal float_of_decimal
           sample_rows sample_tokens sample_tokens H1 H2 H3).
Defined.

(** ** Selection *)

Lemma clear_flags_lookup (items : list loc) (selected : loc -> bool) (x : loc) :
  _clearSelectedText items selected x
  = if decide (x ∈ items) then false else selected x.
Proof.
  unfold _clearSelectedText. revert selected.
  induction items as [|i items IH]; intros selected; csimpl; [done|].
  rewrite IH. destruct (decide (x ∈ items)).
  - by rewrite decide_True by set_solver.
  - destruct (decide (x = i)) as [->|Hne].
    + by rewrite fn_lookup_insert, decide_True by set_solver.
    + by rewrite fn_lookup_insert_ne, decide_False by set_solver.
Qed.

Lemma filter_none (P : loc -> Prop) `{!forall x, Decision (P x)} (l : list loc) :
  (forall x, x ∈ l -> ~ P x) -> filter P l = [].
Proof.
  intros Hl. apply elem_of_nil_inv. intros x [HP Hx]%list_elem_of_filter.
  by apply (Hl x).
Qed.

(** X15.  [_clearSelectedText] unselects every item of the list and touches
    no other item; a copy made after it puts the empty string on the
    clipboard. *)
Theorem clear_unselects_all (v : Viewer) :
  (forall x, x ∈ _textRectItems v ->
     _isSelected (emit_clearSelectedText v) x = false)
  /\ (forall x, x ∉ _textRectItems v ->
        _isSelected (emit_clearSelectedText v) x = _isSelected v x)
  /\ _copyTextToClipboard (emit_clearSelectedText v) = [].
Proof.
  split_and!.
  - intros x Hx. simpl. by rewrite clear_flags_lookup, decide_True.
  - intros x Hx. simpl. by rewrite clear_flags_lookup, decide_False.
  - unfold _copyTextToClipboard. simpl. rewrite filter_none; [done|].
    intros x Hx. by rewrite clear_flags_lookup, decide_True.
Qed.

Lemma slice_elem (items : list loc) (lo hi i : nat) (x : loc) :
  items !! i = Some x -> (lo <= i <= hi)%nat ->
  x ∈ take (S hi - lo) (drop lo items).
Proof.
  intros Hi Hr. apply list_elem_of_lookup. exists (i - lo)%nat.
  rewrite lookup_take_lt by lia. rewrite lookup_drop.
  by replace (lo + (i - lo))%nat with i by lia.
Qed.

(** What [_setSelectedText] does for two items of the list. *)
Lemma setSelectedText_spec (items : list loc) (a b : loc)
    (selected : loc -> bool) :
  a ∈ items -> b ∈ items ->
  exists range sel',
    textReactItemsRange items a b = Ok range
    /\ a ∈ range /\ b ∈ range
    /\ (exists ia ib,
          items !! ia = Some a /\ items !! ib = Some b
          /\ range = take (S (ia `max` ib) - ia `min` ib)
                         (drop (ia `min` ib) items))
    /\ _setSelectedText items a b selected = Ok sel'
    /\ forall x, sel' x = if decide (x ∈ items) then bool_decide (x ∈ range)
                          else selected x.
Proof.
  intros Ha Hb.
  destruct (index_elem items a Ha) as (ia & Hia & Hla).
  destruct (index_elem items b Hb) as (ib & Hib & Hlb).
  assert (Hab : textReactItemsRange items a b
                = Ok (take (S (ia `max` ib) - ia `min` ib)
                           (drop (ia `min` ib) items))).
  { unfold textReactItemsRange. rewrite Hia, Hib. csimpl.
    by rewrite sorted2_min_max, items_between_slice. }
  eexists. eexists. split; [exact Hab|]. split_and!.
  - apply (slice_elem items _ _ ia); [done|lia].
  - apply (slice_elem items _ _ ib); [done|lia].
  - by exists ia, ib.
  - unfold _setSelectedText. rewrite Hab. csimpl. reflexivity.
  - intros x. apply set_flags_lookup.
Qed.

(** X16.  Every call of [_setSelectedText] is a full re-evaluation: for two
    items of the list the flags it leaves on the items of the list do not
    depend on the flags before the call, the two given items are selected,
    and the flag of an item outside the list is not changed. *)
Theorem setSelectedText_reevaluates (items : list loc) (a b : loc)
    (sel1 sel2 : loc -> bool) :
  a ∈ items -> b ∈ items ->
  exists s1 s2,
    _setSelectedText items a b sel1 = Ok s1
    /\ _setSelectedText items a b sel2 = Ok s2
    /\ (forall x, x ∈ items -> s1 x = s2 x)
    /\ s1 a = true /\ s1 b = true
    /\ (forall x, x ∉ items -> s1 x = sel1 x).
Proof.
  intros Ha Hb.
  destruct (setSelectedText_spec items a b sel1 Ha Hb)
    as (range & s1 & Hr & Har & Hbr & _ & Hs1 & Hl1).
  destruct (setSelectedText_spec items a b sel2 Ha Hb)
    as (range' & s2 & Hr' & _ & _ & _ & Hs2 & Hl2).
  rewrite Hr in Hr'. injection Hr' as <-.
  exists s1, s2. split_and!; [done..| | | |].
  - intros x Hx. by rewrite Hl1, Hl2, !decide_True.
  - rewrite Hl1, decide_True by done. by apply bool_decide_eq_true.
  - rewrite Hl1, decide_True by done. by apply bool_decide_eq_true.
  - intros x Hx. by rewrite Hl1, decide_False.
Qed.

Lemma setSelectedText_reevaluates_witness :
  (7 ∈ [5; 6; 7; 8])%positive /\ (5 ∈ [5; 6; 7; 8])%positive
  /\ exists s1 s2,
       _setSelectedText [5; 6; 7; 8]%positive 7%positive 5%positive
         (fun _ => false) = Ok s1
       /\ _setSelectedText [5; 6; 7; 8]%positive 7%positive 5%positive
            (fun _ => true) = Ok s2
       /\ (forall x, x ∈ [5; 6; 7; 8]%positive -> s1 x = s2 x)
       /\ s1 7%positive = true /\ s1 5%positive = true
       /\ (forall x, x ∉ [5; 6; 7; 8]%positive -> s1 x = false).
Proof.
  assert (H7 : (7 ∈ [5; 6; 7; 8])%positive)
    by (apply (bool_decide_unpack _); vm_compute; exact I).
  assert (H5 : (5 ∈ [5; 6; 7; 8])%positive)
    by (apply (bool_decide_unpack _); vm_compute; exact I).
  split; [exact H7|]. split; [exact H5|].
  exact (setSelectedText_reevaluates [5; 6; 7; 8]%positive 7%positive 5%positive
           (fun _ => false) (fun _ => true) H7 H5).
Defined.

(** ** The mouse handlers *)

Lemma for_each_app {S A : Type} (body : S -> A -> result S) (s : S)
    (l1 l2 : list A) :
  for_each body s (l1 ++ l2) = s' ← for_each body s l1; for_each body s' l2.
Proof.
  revert s. induction l1 as [|x l1 IH]; intros s; csimpl; [done|].
  destruct (body s x); csimpl; [apply IH|done].
Qed.

Lemma bind_Ok {A B : Type} (a : A) (f : A -> result B) : Ok a ≫= f = f a.
Proof. done. Qed.

Lemma for_each_single {S A : Type} (body : S -> A -> result S) (s : S) (x : A) :
  for_each body s [x] = body s x.
Proof. simpl. by destruct (body s x). Qed.

Lemma emit_setSelectedText_spec (v : Viewer) (a b : loc) :
  a ∈ _textRectItems v -> b ∈ _textRectItems v ->
  exists v' range,
    emit_setSelectedText a b v = Ok v'
    /\ textReactItemsRange (_textRectItems v) a b = Ok range
    /\ (exists ia ib,
          _textRectItems v !! ia = Some a /\ _textRectItems v !! ib = Some b
          /\ range = take (S (ia `max` ib) - ia `min` ib)
                         (drop (ia `min` ib) (_textRectItems v)))
    /\ same_scene v v' /\ _firstText v' = _firstText v
    /\ forall x, x ∈ _textRectItems v ->
         _isSelected v' x = bool_decide (x ∈ range).
Proof.
  intros Ha Hb.
  destruct (setSelectedText_spec (_textRectItems v) a b (_isSelected v) Ha Hb)
    as (range & sel' & Hr & _ & _ & Hslice & Hs & Hl).
  eexists. exists range. unfold emit_setSelectedText. rewrite Hs. csimpl.
  split; [reflexivity|]. split_and!; [done..|].
  intros x Hx. simpl. by rewrite Hl, decide_True.
Qed.

Lemma handle_ok (v : Viewer) (ev : mouse_event) :
  first_in_items v -> over_items v ev ->
  exists v', handle v ev = Ok v' /\ first_in_items v' /\ same_scene v v'.
Proof.
  intros Hf Hev. destruct ev as [[r|]|[r|]|]; simpl.
  - eexists. split; [done|]. split; [|done].
    intros f [= <-]. simpl. by apply Hev.
  - eexists. split; [done|]. by split.
  - destruct (_firstText v) as [f|] eqn:E; [|by exists v].
    destruct (emit_setSelectedText_spec v f r) as (v' & _ & -> & _ & _ & Hsc & Hft & _).
    { by apply Hf. } { by apply Hev. }
    exists v'. split; [done|]. split; [|done].
    intros f'. rewrite Hft, E. intros [= <-].
    destruct Hsc as (-> & _). by apply Hf.
  - by exists v.
  - eexists. split; [done|]. by split.
Qed.

(** X17.  The mouse handlers never raise: as long as the events are over
    nothing or over items of the list, and the item a drag started on is in
    the list, every handler returns, the same holds afterwards, and the
    list, the tokens and the items' tokens are not changed. *)
Theorem mouse_events_never_raise (v : Viewer) (evs : list mouse_event) :
  first_in_items v -> Forall (over_items v) evs ->
  exists v', for_each handle v evs = Ok v'
    /\ first_in_items v' /\ same_scene v v'.
Proof.
  revert v. induction evs as [|ev evs IH]; intros v Hf Hevs; csimpl.
  - by exists v.
  - apply Forall_cons in Hevs as [Hev Hevs].
    destruct (handle_ok v ev Hf Hev) as (v1 & -> & Hf1 & Hs1). csimpl.
    destruct (IH v1 Hf1) as (v' & Hrun & Hf' & Hs').
    { eapply Forall_impl; [exact Hevs|]. intros ev' Hev' r Hr.
      destruct Hs1 as (-> & _). by apply Hev'. }
    exists v'. split; [done|]. split; [done|].
    destruct Hs1 as (E1 & E2 & E3), Hs' as (E1' & E2' & E3').
    split_and!; congruence.
Qed.

Lemma moves_keep_first (v : Viewer) (a : loc) (moves : list (option loc)) :
  _firstText v = Some a -> a ∈ _textRectItems v ->
  Forall (fun m => forall r, m = Some r -> r ∈ _textRectItems v) moves ->
  exists v', for_each handle v (Move <$> moves) = Ok v'
    /\ _firstText v' = Some a /\ same_scene v v'.
Proof.
  revert v. induction moves as [|m moves IH]; intros v Hf Ha Hms; csimpl.
  - by exists v.
  - apply Forall_cons in Hms as [Hm Hms].
    assert (exists v1, mouseMoveEvent m v = Ok v1
              /\ _firstText v1 = Some a /\ same_scene v v1) as (v1 & -> & Hf1 & Hs1).
    { destruct m as [r|]; simpl; [|by exists v]. rewrite Hf.
      destruct (emit_setSelectedText_spec v a r Ha (Hm r eq_refl))
        as (v1 & _ & -> & _ & _ & Hsc & Hft & _).
      exists v1. split; [done|]. split; [congruence|done]. }
    csimpl. destruct Hs1 as (E1 & E2 & E3).
    destruct (IH v1) as (v' & Hrun & Hf' & (E1' & E2' & E3')); [done|congruence| |].
    { by rewrite E1. }
    exists v'. split; [done|]. split; [done|]. split_and!; congruence.
Qed.

(** X18.  A drag selects what lies between its two ends, however the
    pointer got there: after a press on item [a] and any moves over items of
    the list that end on item [b], the selected items of the list are those
    of the range between [a] and [b], and, in a list without repeated item,
    a copy gives the plain text of the tokens of that range. *)
Theorem drag_selects_between (v : Viewer) (a b : loc)
    (moves : list (option loc)) :
  a ∈ _textRectItems v -> b ∈ _textRectItems v ->
  Forall (fun m => forall r, m = Some r -> r ∈ _textRectItems v) moves ->
  exists v' range,
    for_each handle v (Press (Some a) :: (Move <$> moves) ++ [Move (Some b)])
    = Ok v'
    /\ textReactItemsRange (_textRectItems v) a b = Ok range
    /\ (forall x, x ∈ _textRectItems v -> _isSelected v' x = true <-> x ∈ range)
    /\ (NoDup (_textRectItems v) ->
        _copyTextToClipboard v'
        = get_plain_text (texts v <$> (getTextObject v <$> range))).
Proof.
  intros Ha Hb Hms.
  set (v0 := mousePressEvent (Some a) v).
  change (for_each handle v
            (Press (Some a) :: (Move <$> moves) ++ [Move (Some b)]))
    with (for_each handle v0 ((Move <$> moves) ++ [Move (Some b)])).
  assert (H0 : _textRectItems v0 = _textRectItems v /\ texts v0 = texts v
               /\ getTextObject v0 = getTextObject v /\ _firstText v0 = Some a)
    by done.
  destruct H0 as (I0 & T0 & G0 & F0).
  rewrite for_each_app.
  destruct (moves_keep_first v0 a moves F0) as (v1 & -> & F1 & (I1 & T1 & G1)).
  { by rewrite I0. } { by rewrite I0. }
  rewrite bind_Ok, for_each_single. cbn [handle mouseMoveEvent]. rewrite F1.
  destruct (emit_setSelectedText_spec v1 a b)
    as (v' & range & -> & Hr & (ia & ib & _ & _ & Hslice) & (I2 & T2 & G2)
        & _ & Hsel).
  { by rewrite I1, I0. } { by rewrite I1, I0. }
  rewrite I1, I0 in Hr, Hslice, Hsel.
  exists v', range. split_and!; [done|done| |].
  - intros x Hx. rewrite (Hsel x Hx). apply bool_decide_eq_true.
  - intros Hnd. unfold _copyTextToClipboard.
    rewrite I2, T2, G2, I1, T1, G1, I0, T0, G0. do 3 f_equal.
    transitivity (filter (fun x => x ∈ range) (_textRectItems v)).
    + apply filter_ext_elem. intros x Hx. rewrite (Hsel x Hx).
      apply bool_decide_eq_true.
    + rewrite Hslice. by apply filter_slice.
Qed.

Lemma mouse_events_never_raise_witness :
  first_in_items sample_viewer
  /\ Forall (over_items sample_viewer)
       [Press (Some 4%positive); Move (Some 3%positive); Release]
  /\ exists v',
       for_each handle sample_viewer
         [Press (Some 4%positive); Move (Some 3%positive); Release] = Ok v'
       /\ first_in_items v' /\ same_scene sample_viewer v'.
Proof.
  assert (H1 : first_in_items sample_viewer)
    by (intros f Hf; vm_compute in Hf; discriminate Hf).
  assert (H2 : Forall (over_items sample_viewer)
                 [Press (Some 4%positive); Move (Some 3%positive); Release]).
  { apply Forall_cons_2; [|apply Forall_cons_2; [|apply Forall_cons_2;
      [|apply Forall_nil_2]]]; intros r Hr; try discriminate Hr;
      injection Hr as <-; apply (bool_decide_unpack _); vm_compute; exact I. }
  split; [exact H1|]. split; [exact H2|].
  exact (mouse_events_never_raise sample_viewer _ H1 H2).
Defined.

Lemma drag_selects_between_witness :
  4%positive ∈ _textRectItems sample_viewer
  /\ 3%positive ∈ _textRectItems sample_viewer
  /\ Forall (fun m => forall r, m = Some r -> r ∈ _textRectItems sample_viewer)
       [None; Some 4%positive]
  /\ exists v' range,
       for_each handle sample_viewer
         (Press (Some 4%positive)
          :: (Move <$> [None; Some 4%positive]) ++ [Move (Some 3%positive)])
       = Ok v'
       /\ textReactItemsRange (_textRectItems sample_viewer) 4%positive 3%positive
          = Ok range
       /\ (forall x, x ∈ _textRectItems sample_viewer ->
             _isSelected v' x = true <-> x ∈ range)
       /\ (NoDup (_textRectItems sample_viewer) ->
           _copyTextToClipboard v'
           = get_plain_text
               (texts sample_viewer <$> (getTextObject sample_viewer <$> range))).
Proof.
  assert (H4 : 4%positive ∈ _textRectItems sample_viewer)
    by (apply (bool_decide_unpack _); vm_compute; exact I).
  assert (H3 : 3%positive ∈ _textRectItems sample_viewer)
    by (apply (bool_decide_unpack _); vm_compute; exact I).
  assert (Hm : Forall (fun m => forall r, m = Some r ->
                                 r ∈ _textRectItems sample_viewer)
                 [None; Some 4%positive]).
  { apply Forall_cons_2; [|apply Forall_cons_2; [|apply Forall_nil_2]];
      intros r Hr; try discriminate Hr. by injection Hr as <-. }
  split; [exact H4|]. split; [exact H3|]. split; [exact Hm|].
  exact (drag_selects_between sample_viewer 4%positive 3%positive _ H4 H3 Hm).
Defined.

(** ** Loading *)

Lemma new_tokens_snoc (ts : list Text) (t : Text) (h : heap) (n : loc) :
  new_tokens (ts ++ [t]) h n
  = let '(locs, h', n') := new_tokens ts h n in
    (locs ++ [n'], <[n' := t]> h', Pos.succ n').
Proof.
  unfold new_tokens. rewrite foldl_app. simpl.
  by destruct (foldl _ _ ts) as [[locs h'] n'].
Qed.

(** The new token objects: one new identity per token, all different, at or
    after [n]; the objects before [n] are not touched. *)
Lemma new_tokens_spec (ts : list Text) (h : heap) (n : loc) :
  exists locs h' n',
    new_tokens ts h n = (locs, h', n')
    /\ (n <= n')%positive
    /\ (forall l, l ∈ locs -> (n <= l < n')%positive)
    /\ NoDup locs
    /\ h' <$> locs = ts
    /\ (forall l, (l < n)%positive -> h' l = h l).
Proof.
  induction ts as [|t ts IH] using rev_ind.
  - exists [], h, n. split_and!; [done|lia|set_solver|constructor|done|done].
  - destruct IH as (locs & h' & n' & E & Hle & Hin & Hnd & Hread & Hold).
    rewrite new_tokens_snoc, E.
    exists (locs ++ [n']), (<[n' := t]> h'), (Pos.succ n').
    split_and!; [done|lia| | | |].
    + intros l [Hl| ->%list_elem_of_singleton]%elem_of_app; [|lia].
      apply Hin in Hl. lia.
    + apply NoDup_app. split_and!; [done| |apply NoDup_singleton].
      intros l Hl ->%list_elem_of_singleton. apply Hin in Hl. lia.
    + rewrite fmap_app. csimpl. rewrite fn_lookup_insert. f_equal.
      rewrite <- Hread. apply list_fmap_ext. intros i l Hl%list_elem_of_lookup_2.
      apply fn_lookup_insert_ne. apply Hin in Hl. lia.
    + intros l Hl. rewrite fn_lookup_insert_ne by lia. by apply Hold.
Qed.

Lemma add_rect_items_snoc (v : Viewer) (text : list loc) (i : loc) :
  foldl add_rect_item v (text ++ [i])
  = add_rect_item (foldl add_rect_item v text) i.
Proof. by rewrite foldl_app. Qed.

(** The rectangle-item loop: one new item per token, all different, each
    carrying its token, with the token's rectangle, not selected. *)
Lemma add_rect_items_spec (v : Viewer) (text : list loc) :
  exists new,
    _textRectItems (foldl add_rect_item v text) = _textRectItems v ++ new
    /\ texts (foldl add_rect_item v text) = texts v
    /\ _text (foldl add_rect_item v text) = _text v
    /\ _firstText (foldl add_rect_item v text) = _firstText v
    /\ (next_id v <= next_id (foldl add_rect_item v text))%positive
    /\ (forall r, r ∈ new ->
          (next_id v <= r < next_id (foldl add_rect_item v text))%positive)
    /\ NoDup new
    /\ getTextObject (foldl add_rect_item v text) <$> new = text
    /\ (forall r, r ∈ new ->
          _isSelected (foldl add_rect_item v text) r = false
          /\ rect (foldl add_rect_item v text) r
             = geometry (texts v (getTextObject (foldl add_rect_item v text) r))).
Proof.
  induction text as [|i text IH] using rev_ind.
  - exists []. simpl. rewrite app_nil_r.
    split_and!; [done..|lia|set_solver|constructor|done|set_solver].
  - destruct IH as (new & Hitems & Htexts & Htext & Hfirst & Hle & Hin & Hnd
                    & Hobj & Hnew).
    rewrite add_rect_items_snoc.
    set (v1 := foldl add_rect_item v text) in *.
    exists (new ++ [next_id v1]). simpl.
    split_and!; [by rewrite Hitems, app_assoc|done..|lia| | | |].
    + intros r [Hr| ->%list_elem_of_singleton]%elem_of_app; [|lia].
      apply Hin in Hr. lia.
    + apply NoDup_app. split_and!; [done| |apply NoDup_singleton].
      intros r Hr ->%list_elem_of_singleton. apply Hin in Hr. lia.
    + rewrite fmap_app. csimpl. rewrite fn_lookup_insert. f_equal.
      rewrite <- Hobj. apply list_fmap_ext. intros k r Hr%list_elem_of_lookup_2.
      apply fn_lookup_insert_ne. apply Hin in Hr. lia.
    + intros r [Hr| ->%list_elem_of_singleton]%elem_of_app.
      * assert (next_id v1 <> r) by (apply Hin in Hr; lia).
        rewrite !fn_lookup_insert_ne by done. by apply Hnew.
      * rewrite !fn_lookup_insert. by rewrite Htexts.
Qed.

Section LoadingProperties.
Variable py_int : str -> option Z.
Variable py_float : str -> option float.

(** What a successful [_doOCR] leaves. *)
Lemma doOCR_spec (rows : list row) (v v' : Viewer) :
  _doOCR py_int py_float rows v = Ok v' ->
  exists ts,
    get_text py_int py_float rows false = Ok ts
    /\ Forall2 same_but_geometry ts (texts v' <$> _text v')
    /\ NoDup (_text v')
    /\ NoDup (_textRectItems v')
    /\ getTextObject v' <$> _textRectItems v' = _text v'
    /\ _firstText v' = _firstText v
    /\ (forall r, r ∈ _textRectItems v' ->
          _isSelected v' r = false
          /\ rect v' r = geometry (texts v' (getTextObject v' r))).
Proof.
  unfold _doOCR.
  destruct (get_text py_int py_float rows false) as [ts|e]; [|done].
  rewrite bind_Ok.
  destruct (new_tokens_spec ts (texts v) (next_id v))
    as (text & h & n & -> & _ & _ & Hnd & Hread & _).
  destruct (fix_size_and_position_spec text h) as (h' & -> & Hin & Hout).
  rewrite bind_Ok. intros [= <-].
  set (v0 := mkViewer h' text [] (rect v) (getTextObject v) (_isSelected v)
                      (_firstText v) n).
  destruct (add_rect_items_spec v0 text)
    as (new & Hitems & -> & -> & -> & _ & _ & Hndn & Hobj & Hnew).
  rewrite Hitems. simpl.
  exists ts. split_and!; [done| |done..].
  rewrite <- Hread. apply Forall2_fmap, Forall2_lookup. intros i.
  destruct (text !! i) as [l|] eqn:E; constructor.
  destruct (Hin l) as (hgt & tp & _ & _ & ->); [|by repeat split].
  by apply list_elem_of_lookup_2 in E.
Qed.

(** X19.  The two outcomes of [_doOCR].  When it returns, [_text] holds the
    tokens [get_text] returns by default, changed in top and height only,
    each a different object; [_textRectItems] holds one new item per token,
    in token order and all different, each carrying its token, with the
    rectangle of its token after normalization, and not selected.  When it
    raises, the exception is the one [get_text] raises. *)
Theorem doOCR_outcome (rows : list row) (v : Viewer) :
  match _doOCR py_int py_float rows v with
  | Ok v' =>
      exists ts,
        get_text py_int py_float rows false = Ok ts
        /\ Forall2 same_but_geometry ts (texts v' <$> _text v')
        /\ NoDup (_text v')
        /\ NoDup (_textRectItems v')
        /\ getTextObject v' <$> _textRectItems v' = _text v'
        /\ (forall r, r ∈ _textRectItems v' ->
              _isSelected v' r = false
              /\ rect v' r = geometry (texts v' (getTextObject v' r)))
  | Raise e => get_text py_int py_float rows false = Raise e
  end.
Proof.
  destruct (_doOCR py_int py_float rows v) as [v'|e] eqn:E.
  - destruct (doOCR_spec rows v v' E)
      as (ts & Hts & Hsame & Hnd & Hndi & Hobj & _ & Hnew).
    by exists ts.
  - unfold _doOCR in E.
    destruct (get_text py_int py_float rows false) as [ts|e'];
      [|by injection E as <-].
    rewrite bind_Ok in E.
    destruct (new_tokens_spec ts (texts v) (next_id v))
      as (text & h & n & Hn & _).
    rewrite Hn in E.
    destruct (fix_size_and_position_spec text h) as (h' & Hfix & _).
    by rewrite Hfix in E.
Qed.

Lemma same_but_geometry_reads (ts ts' : list Text) :
  Forall2 same_but_geometry ts ts' ->
  Forall2 (fun t t' => line t = line t' /\ text t = text t') ts ts'.
Proof.
  intros H. eapply Forall2_impl; [exact H|].
  intros t t' (_ & _ & _ & _ & _ & _ & Hl & _ & _ & Ht). by split.
Qed.

Lemma get_plain_text_agree (txt txt' : list Text) :
  Forall2 (fun t t' => line t = line t' /\ text t = text t') txt txt' ->
  get_plain_text txt = get_plain_text txt'.
Proof.
  intros Hagree. unfold get_plain_text.
  rewrite (Forall2_length _ _ _ Hagree).
  by rewrite (plain_text_fold_reads txt txt' _ Hagree).
Qed.

(** X20.  From the records to the clipboard: after [_loadImage], a press on
    the item at position [i] of [_textRectItems] followed by moves over
    items that end on the item at position [j] makes a copy give the plain
    text of the tokens that [get_text] returns by default, from the smaller
    of the two positions to the larger, both included. *)
Theorem load_drag_copy (rows : list row) (v v1 : Viewer) (ts : list Text)
    (i j : nat) (a b : loc) (moves : list (option loc)) :
  _loadImage py_int py_float rows v = Ok v1 ->
  get_text py_int py_float rows false = Ok ts ->
  _textRectItems v1 !! i = Some a -> _textRectItems v1 !! j = Some b ->
  Forall (fun m => forall r, m = Some r -> r ∈ _textRectItems v1) moves ->
  exists v2,
    for_each handle v1 (Press (Some a) :: (Move <$> moves) ++ [Move (Some b)])
    = Ok v2
    /\ _copyTextToClipboard v2
       = get_plain_text (take (S (i `max` j) - i `min` j) (drop (i `min` j) ts)).
Proof.
  intros Hload Hts Hi Hj Hms.
  destruct (doOCR_spec rows _ v1 Hload)
    as (ts' & Hts' & Hsame & _ & Hnd & Hobj & _ & _).
  rewrite Hts in Hts'. injection Hts' as <-.
  assert (Ha : a ∈ _textRectItems v1) by (by apply list_elem_of_lookup_2 in Hi).
  assert (Hb : b ∈ _textRectItems v1) by (by apply list_elem_of_lookup_2 in Hj).
  set (v0 := mousePressEvent (Some a) v1).
  change (for_each handle v1
            (Press (Some a) :: (Move <$> moves) ++ [Move (Some b)]))
    with (for_each handle v0 ((Move <$> moves) ++ [Move (Some b)])).
  assert (H0 : _textRectItems v0 = _textRectItems v1 /\ texts v0 = texts v1
               /\ getTextObject v0 = getTextObject v1 /\ _firstText v0 = Some a)
    by done.
  destruct H0 as (I0 & T0 & G0 & F0).
  rewrite for_each_app.
  destruct (moves_keep_first v0 a moves F0) as (v' & -> & F1 & (I1 & T1 & G1)).
  { by rewrite I0. } { by rewrite I0. }
  rewrite bind_Ok, for_each_single. cbn [handle mouseMoveEvent]. rewrite F1.
  destruct (emit_setSelectedText_spec v' a b)
    as (v2 & range & -> & _ & (ia & ib & Hia & Hib & Hslice) & (I2 & T2 & G2)
        & _ & Hsel).
  { by rewrite I1, I0. } { by rewrite I1, I0. }
  rewrite I1, I0 in Hia, Hib, Hslice, Hsel.
  assert (ia = i) as -> by (by eapply NoDup_lookup).
  assert (ib = j) as -> by (by eapply NoDup_lookup).
  exists v2. split; [done|].
  unfold _copyTextToClipboard. rewrite I2, T2, G2, I1, T1, G1, I0, T0, G0.
  assert (Hf : filter (fun x => _isSelected v2 x = true) (_textRectItems v1)
               = range).
  { transitivity (filter (fun x => x ∈ range) (_textRectItems v1)).
    - apply filter_ext_elem. intros x Hx. rewrite (Hsel x Hx).
      apply bool_decide_eq_true.
    - rewrite Hslice. by apply filter_slice. }
  rewrite Hf, Hslice, !fmap_take, !fmap_drop, Hobj.
  symmetry. apply get_plain_text_agree.
  apply Forall2_take, Forall2_drop. by apply same_but_geometry_reads.
Qed.

Lemma handlers_return (v : Viewer) (evs : list mouse_event) :
  first_in_items v ->
  Forall (fun ev => forall r, event_item ev = Some r -> r ∈ _textRectItems v) evs ->
  exists v', for_each handle v evs = Ok v'.
Proof.
  revert v. induction evs as [|ev evs IH]; intros v Hf Hevs; csimpl.
  - by exists v.
  - apply Forall_cons in Hevs as [Hev Hevs].
    destruct (handle_ok v ev Hf Hev) as (v1 & -> & Hf1 & (E1 & _)). csimpl.
    apply (IH v1 Hf1). by rewrite E1.
Qed.

(** X21.  No stale item after a load: [_loadImage] forgets the item a drag
    started on, so after it the mouse handlers return on every sequence of
    events over the new items; [list.index] never raises its
    [ValueError]. *)
Theorem load_then_events_return (rows : list row) (v v1 : Viewer)
    (evs : list mouse_event) :
  _loadImage py_int py_float rows v = Ok v1 ->
  Forall (over_items v1) evs ->
  _firstText v1 = None /\ exists v2, for_each handle v1 evs = Ok v2.
Proof.
  intros Hload Hevs.
  destruct (doOCR_spec rows _ v1 Hload) as (_ & _ & _ & _ & _ & _ & Hfirst & _).
  simpl in Hfirst. split; [done|].
  apply handlers_return; [|done]. intros f Hf. congruence.
Qed.
End LoadingProperties.

Lemma load_drag_copy_witness :
  _loadImage int_of_decimal float_of_decimal sample_rows empty_viewer
  = Ok sample_viewer
  /\ get_text int_of_decimal float_of_decimal sample_rows false = Ok sample_tokens
  /\ _textRectItems sample_viewer !! 1%nat = Some 4%positive
  /\ _textRectItems sample_viewer !! 0%nat = Some 3%positive
  /\ Forall (fun m => forall r, m = Some r -> r ∈ _textRectItems sample_viewer)
       [None; Some 4%positive]
  /\ exists v2,
       for_each handle sample_viewer
         (Press (Some 4%positive)
          :: (Move <$> [None; Some 4%positive]) ++ [Move (Some 3%positive)])
       = Ok v2
       /\ _copyTextToClipboard v2
          = get_plain_text
              (take (S (1 `max` 0) - 1 `min` 0) (drop (1 `min` 0) sample_tokens)).
Proof.
  assert (H1 : _loadImage int_of_decimal float_of_decimal sample_rows empty_viewer
               = Ok sample_viewer) by (vm_compute; reflexivity).
  assert (H2 : get_text int_of_decimal float_of_decimal sample_rows false
               = Ok sample_tokens) by (vm_compute; reflexivity).
  assert (H3 : _textRectItems sample_viewer !! 1%nat = Some 4%positive)
    by (vm_compute; reflexivity).
  assert (H4 : _textRectItems sample_viewer !! 0%nat = Some 3%positive)
    by (vm_compute; reflexivity).
  assert (Hm : Forall (fun m => forall r, m = Some r ->
                                 r ∈ _textRectItems sample_viewer)
                 [None; Some 4%positive]).
  { apply Forall_cons_2; [|apply Forall_cons_2; [|apply Forall_nil_2]];
      intros r Hr; try discriminate Hr. injection Hr as <-.
    apply (bool_decide_unpack _); vm_compute; exact I. }
  split; [exact H1|]. split; [exact H2|]. split; [exact H3|].
  split; [exact H4|]. split; [exact Hm|].
  exact (load_drag_copy int_of_decimal float_of_decimal sample_rows empty_viewer
           sample_viewer sample_tokens 1 0 4%positive 3%positive _
           H1 H2 H3 H4 Hm).
Defined.

Lemma load_then_events_return_witness :
  _loadImage int_of_decimal float_of_decimal sample_rows empty_viewer
  = Ok sample_viewer
  /\ Forall (over_items sample_viewer)
       [Move (Some 3%positive); Press (Some 4%positive); Move (Some 3%positive)]
  /\ _firstText sample_viewer = None
  /\ exists v2,
       for_each handle sample_viewer
         [Move (Some 3%positive); Press (Some 4%positive); Move (Some 3%positive)]
       = Ok v2.
Proof.
  assert (H1 : _loadImage int_of_decimal float_of_decimal sample_rows empty_viewer
               = Ok sample_viewer) by (vm_compute; reflexivity).
  assert (H2 : Forall (over_items sample_viewer)
                 [Move (Some 3%positive); Press (Some 4%positive);
                  Move (Some 3%positive)]).
  { apply Forall_cons_2; [|apply Forall_cons_2; [|apply Forall_cons_2;
      [|apply Forall_nil_2]]]; intros r Hr; injection Hr as <-;
      apply (bool_decide_unpack _); vm_compute; exact I. }
  split; [exact H1|]. split; [exact H2|].
  exact (load_then_events_return int_of_decimal float_of_decimal sample_rows
           empty_viewer sample_viewer _ H1 H2).
Defined.
